(** * Multimodal sentiment analysis notebook: data pipeline, model, loops

    A shallow embedding of [M_Model_S_Analysis.ipynb]: the [MemeDataset]
    adapter, the [MultimodalModel] fusion network, [train_model],
    [evaluate_model] and the train/validation split, followed by the
    properties of the glue logic.

    Python exceptions are values of [exn] carried by [result]; dictionaries
    are association lists in insertion order (the order Python iterates
    them in); a batch tensor of shape (N, ...) is the list of its N slices. *)

From Stdlib Require Import QArith Qround.
From stdpp Require Import base tactics option numbers strings list.

Open Scope string_scope.
Open Scope nat_scope.
Open Scope list_scope.

(** ** Exceptions and fallible computations *)

Inductive exn : Type :=
  | ValueError
  | IndexError
  | KeyError
  | RuntimeError
  | OSError
  | ZeroDivisionError.

Inductive result (A : Type) : Type :=
  | Ok (a : A)
  | Err (e : exn).
Arguments Ok {A} a.
Arguments Err {A} e.

#[export] Instance result_ret : MRet result := λ A a, Ok a.
#[export] Instance result_bind : MBind result := λ A B f r,
  match r with
  | Ok a => f a
  | Err e => Err e
  end.
#[export] Instance result_fmap : FMap result := λ A B f r,
  match r with
  | Ok a => Ok (f a)
  | Err e => Err e
  end.

Definition is_Ok {A} (r : result A) : Prop := ∃ a, r = Ok a.

(** [d[k]] on a dictionary kept as an association list. *)
Fixpoint dict_get {V} (d : list (string * V)) (k : string) : result V :=
  match d with
  | [] => Err KeyError
  | (k', v) :: d' => if decide (k' = k) then Ok v else dict_get d' k
  end.

Definition keys {V} (d : list (string * V)) : list string := d.*1.

(** The list stored under a key, empty when the key is absent. *)
Definition get_list {V} (d : list (string * list V)) (k : string) : list V :=
  match dict_get d k with
  | Ok v => v
  | Err _ => []
  end.

(** ** Tensors: a shape and the flat data *)

Record tensor (A : Type) : Type := Tensor {
  shape : list nat;
  data : list A;
}.
Arguments Tensor {A} shape data.
Arguments shape {A} t.
Arguments data {A} t.

(** [t.squeeze()]: every dimension of extent one is dropped. *)
Definition squeeze {A} (t : tensor A) : tensor A :=
  Tensor (filter (λ d, d ≠ 1) (shape t)) (data t).

(** ** The sample table *)

Record row : Type := Row {
  image_name : string;
  text_corrected : string;
  humour : string;
  sarcasm : string;
  offensive : string;
  motivational : string;
  overall_sentiment : string;
}.

(** A data frame keeps every row with its index label. *)
Abbreviation DataFrame := (list (nat * row)).

(** [pd.read_csv]: rows in file order under a fresh range index. *)
Definition read_csv (rows : list row) : DataFrame := imap (λ i r, (i, r)) rows.

(** [df.iloc[idx]]: positional access. *)
Definition iloc (df : DataFrame) (idx : nat) : result row :=
  match df !! idx with
  | Some (_, r) => Ok r
  | None => Err IndexError
  end.

(** ** MemeDataset *)

Module MemeDataset.

(** [list.index(x)]: position of the first element equal to [x]. *)
Fixpoint index (l : list string) (x : string) : result nat :=
  match l with
  | [] => Err ValueError
  | y :: l' => if decide (y = x) then Ok 0 else S <$> index l' x
  end.

Definition label_maps : list (string * list string) :=
  [ ("sentiment", ["very_negative"; "negative"; "neutral"; "positive"; "very_positive"]);
    ("humor", ["not_funny"; "funny"; "very_funny"; "hilarious"]);
    ("sarcasm", ["not_sarcastic"; "general"; "twisted_meaning"; "very_twisted"]);
    ("offensive", ["not_offensive"; "slight"; "very_offensive"; "hateful_offensive"]);
    ("motivational", ["not_motivational"; "motivational"]) ].

(** The column of the table that carries the label of a task. *)
Definition label_column (task : string) (r : row) : result string :=
  if decide (task = "sentiment") then Ok (overall_sentiment r)
  else if decide (task = "humor") then Ok (humour r)
  else if decide (task = "sarcasm") then Ok (sarcasm r)
  else if decide (task = "offensive") then Ok (offensive r)
  else if decide (task = "motivational") then Ok (motivational r)
  else Err KeyError.

Record encoding : Type := Encoding {
  enc_input_ids : tensor Z;
  enc_attention_mask : tensor Z;
}.

Record item (pixel : Type) : Type := Item {
  input_ids : tensor Z;
  attention_mask : tensor Z;
  pixel_values : tensor pixel;
  labels : list (string * nat);
}.
Arguments Item {pixel}.
Arguments input_ids {pixel}.
Arguments attention_mask {pixel}.
Arguments pixel_values {pixel}.
Arguments labels {pixel}.

Record t : Type := Make {
  labels_df : DataFrame;
  image_dir : string;
  text_max_length : nat;
}.

(** [__init__]; [text_max_length] defaults to 128. *)
Definition default_text_max_length : nat := 128.

Definition init (rows : list row) (dir : string) (max_len : option nat) : t :=
  Make (read_csv rows) dir (default default_text_max_length max_len).

Definition len (ds : t) : nat := length (labels_df ds).

Section GetItem.
Context {pixel : Type}.

(** The vocabulary lookup of the pretrained tokenizer: the token ids of
    a text, without the special tokens, before padding and truncation. *)
Variable wordpiece : string → list Z.

(** Opening, converting and preprocessing the image file of a row:
    pixel values with a leading batch dimension, or the I/O error. *)
Variable load_image : string → string → result (tensor pixel).

(** The padding, [CLS] and [SEP] token ids of the text encoder's
    vocabulary. *)
Definition pad_token_id : Z := 0%Z.
Definition cls_token_id : Z := 101%Z.
Definition sep_token_id : Z := 102%Z.

(** Modelled from the spec: the tokenizer call of [__getitem__]
    ([padding='max_length'], [truncation=True], [return_tensors="pt"])
    belongs to the external tokenizer library. The token ids of the text
    are cut so that, with the [CLS] token in front and the [SEP] token
    behind, the sequence has the configured maximum; the sequence is
    padded with the padding id up to the maximum, and the attention mask
    marks what is not padding. The library never cuts the two special
    tokens: when the tokens to remove are as many as the text has or
    more, it reports the fact and leaves the text as it is. Both tensors
    come back with a leading batch dimension of one. *)
Definition tokenizer (text : string) (max_length : nat) : encoding :=
  let tokens := wordpiece text in
  let num_tokens_to_remove := length tokens + 2 - max_length in
  let kept :=
    if decide (num_tokens_to_remove < length tokens)
    then take (length tokens - num_tokens_to_remove) tokens
    else tokens in
  let ids := cls_token_id :: kept ++ [sep_token_id] in
  let fill := max_length - length ids in
  Encoding
    (Tensor [1; length ids + fill] (ids ++ replicate fill pad_token_id))
    (Tensor [1; length ids + fill]
       (replicate (length ids) 1%Z ++ replicate fill 0%Z)).

Definition getitem (ds : t) (idx : nat) : result (item pixel) :=
  r ← iloc (labels_df ds) idx;
  let text := text_corrected r in
  let inputs := tokenizer text (text_max_length ds) in
  px ← load_image (image_dir ds) (image_name r);
  vs ← dict_get label_maps "sentiment";
  l_sentiment ← index vs (overall_sentiment r);
  vh ← dict_get label_maps "humor";
  l_humor ← index vh (humour r);
  va ← dict_get label_maps "sarcasm";
  l_sarcasm ← index va (sarcasm r);
  vo ← dict_get label_maps "offensive";
  l_offensive ← index vo (offensive r);
  let l_motivational :=
    if decide (motivational r = "motivational") then 1 else 0 in
  mret (Item
    (squeeze (enc_input_ids inputs))
    (squeeze (enc_attention_mask inputs))
    (squeeze px)
    [ ("sentiment", l_sentiment); ("humor", l_humor);
      ("sarcasm", l_sarcasm); ("offensive", l_offensive);
      ("motivational", l_motivational) ]).

End GetItem.

(** Reading a stored class index back through the vocabulary of its task. *)
Definition decode (task : string) (k : nat) : result string :=
  vocab ← dict_get label_maps task;
  match vocab !! k with
  | Some s => Ok s
  | None => Err IndexError
  end.

End MemeDataset.

(** ** Scalars of score tensors

    The arithmetic of the tensor library is kept abstract: the properties
    below hold for any choice of these operations. *)

Class Scalar (R : Type) : Type := {
  s_zero : R;
  s_add : R → R → R;
  s_mul : R → R → R;
  s_relu : R → R;
  (** [s_scale p x]: [x] divided by [1 - p], the rescaling of dropout. *)
  s_scale : Q → R → R;
  s_ltb : R → R → bool;
}.

(** ** nn layers on batches (a batch is the list of its rows) *)

Module nn.
Section Layers.
Context {R : Type} `{Scalar R}.

Record Linear : Type := MkLinear {
  in_features : nat;
  out_features : nat;
  weight : list (list R);
  bias : list R;
}.

(** [nn.Linear(i, o)]: an [o] by [i] weight matrix and [o] biases,
    filled by the initialiser. *)
Definition Linear_init (i o : nat) (w0 : nat → nat → R) (b0 : nat → R) : Linear :=
  MkLinear i o
    ((λ r, (λ c, w0 r c) <$> seq 0 i) <$> seq 0 o)
    (b0 <$> seq 0 o).

Definition dot (x w : list R) : R :=
  foldl s_add s_zero (zip_with s_mul x w).

(** One row through [x @ W.T + b]. *)
Definition affine (l : Linear) (x : list R) : list R :=
  zip_with s_add (dot x <$> weight l) (bias l).

(** The matrix product raises when the rows of the input do not have
    [in_features] entries. *)
Definition Linear_forward (l : Linear) (x : list (list R)) : result (list (list R)) :=
  if bool_decide (Forall (λ row, length row = in_features l) x)
  then Ok (affine l <$> x)
  else Err RuntimeError.

Inductive layer : Type :=
  | LinearLayer (l : Linear)
  | ReLU
  | Dropout (p : Q).

(** Dropout in training mode zeroes the entries the random draw [keep]
    rejects and rescales the others; in evaluation mode it is the
    identity. *)
Definition dropout_row (p : Q) (keep : nat → bool) (row : list R) : list R :=
  imap (λ j v, if keep j then s_scale p v else s_zero) row.

Definition layer_forward (training : bool) (keep : nat → nat → bool)
    (ly : layer) (x : list (list R)) : result (list (list R)) :=
  match ly with
  | LinearLayer l => Linear_forward l x
  | ReLU => Ok (fmap (M:=list) (fmap (M:=list) s_relu) x)
  | Dropout p =>
      Ok (if training then imap (λ i row, dropout_row p (keep i) row) x else x)
  end.

(** [nn.Sequential]: the layers in order. *)
Fixpoint Sequential_forward (training : bool) (keep : nat → nat → bool)
    (layers : list layer) (x : list (list R)) : result (list (list R)) :=
  match layers with
  | [] => Ok x
  | ly :: rest =>
      y ← layer_forward training keep ly x;
      Sequential_forward training keep rest y
  end.

(** [h[:, 0, :]]: the first position of every sequence of the batch. *)
Definition first_token (h : list (list (list R))) : result (list (list R)) :=
  mapM (λ s, match s with
             | v :: _ => Ok v
             | [] => Err IndexError
             end) h.

(** [torch.cat([a, b], dim=1)]: row-wise concatenation of two batches
    of the same size. *)
Definition cat_dim1 (a b : list (list R)) : result (list (list R)) :=
  if decide (length a = length b)
  then Ok (zip_with app a b)
  else Err RuntimeError.

(** The first index holding the largest entry of a row. *)
Fixpoint argmax_from (i best_i : nat) (best : R) (row : list R) : nat :=
  match row with
  | [] => best_i
  | v :: row' =>
      if s_ltb best v then argmax_from (S i) i v row'
      else argmax_from (S i) best_i best row'
  end.

(** [torch.argmax(x, dim=1)], row by row; a row without entries cannot
    be reduced. *)
Definition argmax (row : list R) : result nat :=
  match row with
  | [] => Err RuntimeError
  | v :: row' => Ok (argmax_from 1 0 v row')
  end.

End Layers.
Arguments Linear R : clear implicits.
Arguments layer R : clear implicits.
End nn.

(** ** MultimodalModel *)

Module MultimodalModel.
Import nn.

Section Model.
Context {R : Type} `{Scalar R}.
(** Parameters of the two pretrained encoders. *)
Context {TextParams ImageParams : Type}.

Record t : Type := Make {
  text_params : TextParams;
  image_params : ImageParams;
  fusion : list (layer R);
  classifier : list (string * Linear R);
  training : bool;
}.

(** The pretrained encoders: from a batch to its last hidden states,
    one sequence of hidden vectors per sample. *)
Variable text_model :
  TextParams → list (list Z) → list (list Z) → result (list (list (list R))).
Variable image_model :
  ImageParams → list (tensor R) → result (list (list (list R))).

(** [__init__]: pretrained encoder parameters, freshly initialised
    fusion layer and heads; a new module is in training mode. *)
Definition init (tp : TextParams) (ip : ImageParams)
    (w0 : string → nat → nat → R) (b0 : string → nat → R) : t :=
  Make tp ip
    [ LinearLayer (Linear_init (768 * 2) 512 (w0 "fusion.0") (b0 "fusion.0"));
      ReLU;
      Dropout (2 # 10) ]
    [ ("sentiment", Linear_init 512 5 (w0 "sentiment") (b0 "sentiment"));
      ("humor", Linear_init 512 4 (w0 "humor") (b0 "humor"));
      ("sarcasm", Linear_init 512 4 (w0 "sarcasm") (b0 "sarcasm"));
      ("offensive", Linear_init 512 4 (w0 "offensive") (b0 "offensive"));
      ("motivational", Linear_init 512 2 (w0 "motivational") (b0 "motivational")) ]
    true.

Definition forward (m : t) (keep : nat → nat → bool)
    (input_ids attention_mask : list (list Z)) (pixel_values : list (tensor R))
    : result (list (string * list (list R))) :=
  h_text ← text_model (text_params m) input_ids attention_mask;
  text_out ← first_token h_text;
  h_image ← image_model (image_params m) pixel_values;
  image_out ← first_token h_image;
  fused ← cat_dim1 text_out image_out;
  fused ← Sequential_forward (training m) keep (fusion m) fused;
  mapM (λ task,
          head ← dict_get (classifier m) task;
          scores ← Linear_forward head fused;
          mret (task, scores))
       (keys (classifier m)).

(** The layer shapes fixed by [__init__]. Training and loading a state
    dictionary change the entries of the parameters, not their shapes. *)
Definition Linear_shape (i o : nat) (l : Linear R) : Prop :=
  in_features l = i ∧ out_features l = o ∧
  length (weight l) = o ∧ Forall (λ r, length r = i) (weight l) ∧
  length (bias l) = o.

Definition architecture (m : t) : Prop :=
  ∃ f p hs hh ha ho hm,
    fusion m = [LinearLayer f; ReLU; Dropout p] ∧
    classifier m = [ ("sentiment", hs); ("humor", hh); ("sarcasm", ha);
                     ("offensive", ho); ("motivational", hm) ] ∧
    Linear_shape (768 * 2) 512 f ∧
    Linear_shape 512 5 hs ∧ Linear_shape 512 4 hh ∧ Linear_shape 512 4 ha ∧
    Linear_shape 512 4 ho ∧ Linear_shape 512 2 hm.

(** What the pretrained encoders deliver for a batch of [n] samples:
    one non-empty sequence of hidden vectors of width 768 per sample. *)
Definition encoder_output (n : nat) (h : list (list (list R))) : Prop :=
  length h = n ∧
  Forall (λ s, s ≠ [] ∧ Forall (λ v, length v = 768) s) h.

(** A score tensor of shape [n] by [c]. *)
Definition scores_shape (n c : nat) (x : list (list R)) : Prop :=
  length x = n ∧ Forall (λ row, length row = c) x.

(** The forward pass as the specification words it, sample by sample.
    First, the pooled representation of an encoder output: the final
    hidden state of its first token. *)
Definition pooled (h : list (list R)) : list R := hd [] h.

(** The fused vector of a sample: the text and image vectors
    concatenated, sent through the shared linear layer, the activation and
    dropout. *)
Definition fused_vector (f : Linear R) (p : Q) (train : bool)
    (keep : nat → bool) (h_text h_image : list (list R)) : list R :=
  let joint := pooled h_text ++ pooled h_image in
  let activated := s_relu <$> affine f joint in
  if train then dropout_row p keep activated else activated.

(** The scores of a batch: every head is a linear map of the one fused
    vector of each sample, and its scores are returned as they are. *)
Definition forward_spec (f : Linear R) (p : Q)
    (heads : list (string * Linear R)) (train : bool)
    (keep : nat → nat → bool) (h_text h_image : list (list (list R)))
    : list (string * list (list R)) :=
  let fused :=
    imap (λ i hh, fused_vector f p train (keep i) hh.1 hh.2)
         (zip h_text h_image) in
  (λ th, (th.1, affine th.2 <$> fused)) <$> heads.

(** [model.train()] and [model.eval()] only flip the mode flag. *)
Definition set_training (b : bool) (m : t) : t :=
  Make (text_params m) (image_params m) (fusion m) (classifier m) b.

End Model.
Arguments t R TextParams ImageParams : clear implicits.
End MultimodalModel.

(** ** Evaluation metrics

    The two scores of the external metrics library, as exact rationals
    computed from counts over the (ground truth, prediction) pairs; a mean
    over nothing is not a number. *)

Module metrics.

Inductive score : Type :=
  | NaN
  | Val (q : Q).

Definition count_pairs (P : nat * nat → bool) (pairs : list (nat * nat)) : nat :=
  length (filter (λ p, P p = true) pairs).

Definition ratio (a b : nat) : score :=
  match b with
  | 0 => NaN
  | S _ => Val (Z.of_nat a # Pos.of_nat b)
  end.

(** Modelled from the spec: [accuracy_score] belongs to the external
    metrics library. It is the share of positions at which prediction and
    ground truth agree; lists of different lengths are refused. *)
Definition accuracy_score (y_true y_pred : list nat) : result score :=
  if decide (length y_true = length y_pred) then
    let pairs := zip y_true y_pred in
    Ok (ratio (count_pairs (λ p, bool_decide (p.1 = p.2)) pairs) (length pairs))
  else Err ValueError.

(** The classes that occur among ground truth or predictions, ascending. *)
Definition unique_labels (y_true y_pred : list nat) : list nat :=
  filter (λ c, c ∈ y_true ∨ c ∈ y_pred) (seq 0 (S (max_list (y_true ++ y_pred)))).

Definition true_positives (c : nat) (pairs : list (nat * nat)) : nat :=
  count_pairs (λ p, bool_decide (p.1 = c ∧ p.2 = c)) pairs.
Definition false_positives (c : nat) (pairs : list (nat * nat)) : nat :=
  count_pairs (λ p, bool_decide (p.1 ≠ c ∧ p.2 = c)) pairs.
Definition false_negatives (c : nat) (pairs : list (nat * nat)) : nat :=
  count_pairs (λ p, bool_decide (p.1 = c ∧ p.2 ≠ c)) pairs.

(** F1 of one class: 2 TP / (2 TP + FP + FN), zero when nothing counts. *)
Definition f1_class (pairs : list (nat * nat)) (c : nat) : Q :=
  let tp := true_positives c pairs in
  let d := 2 * tp + false_positives c pairs + false_negatives c pairs in
  match d with
  | 0 => 0%Q
  | S _ => Z.of_nat (2 * tp) # Pos.of_nat d
  end.

Definition mean (qs : list Q) : score :=
  match qs with
  | [] => NaN
  | _ :: _ => Val (foldl Qplus 0%Q qs / inject_Z (Z.of_nat (length qs)))
  end.

(** Modelled from the spec: [f1_score] with [average="macro"] belongs to
    the external metrics library. It is the unweighted mean of the
    per-class F1 scores over the classes that occur, in ascending order;
    lists of different lengths are refused. *)
Definition f1_score (y_true y_pred : list nat) : result score :=
  if decide (length y_true = length y_pred) then
    let pairs := zip y_true y_pred in
    Ok (mean (f1_class pairs <$> unique_labels y_true y_pred))
  else Err ValueError.

End metrics.

(** ** The training and evaluation loops *)

Definition tasks : list string :=
  ["sentiment"; "humor"; "sarcasm"; "offensive"; "motivational"].

(** The class counts of the five heads. *)
Definition num_classes : list (string * nat) :=
  [ ("sentiment", 5); ("humor", 4); ("sarcasm", 4); ("offensive", 4);
    ("motivational", 2) ].

(** [torch.device('cuda' if torch.cuda.is_available() else 'cpu')]. *)
Inductive torch_device : Type := cpu | cuda.

Definition device (cuda_is_available : bool) : torch_device :=
  if cuda_is_available then cuda else cpu.

Section Loops.
Import nn.
Context {R : Type} `{Scalar R} {TextParams ImageParams : Type}.
Context {Grad OptState : Type}.

Abbreviation model := (MultimodalModel.t R TextParams ImageParams).

Variable text_model :
  TextParams → list (list Z) → list (list Z) → result (list (list (list R))).
Variable image_model :
  ImageParams → list (tensor R) → result (list (list (list R))).

(** A collated batch: the stacked fields of its items. *)
Record batch : Type := Batch {
  b_input_ids : list (list Z);
  b_attention_mask : list (list Z);
  b_pixel_values : list (tensor R);
  b_labels : list (string * list nat);
}.

(** [torch.stack]: the tensors must agree in shape. *)
Definition stack {A} (ts : list (tensor A)) : result (list (tensor A)) :=
  match ts with
  | [] => Err RuntimeError
  | t0 :: _ =>
      if bool_decide (Forall (λ t, shape t = shape t0) ts) then Ok ts
      else Err RuntimeError
  end.

(** The collation a [DataLoader] applies when it is given none: the items
    of a batch are stacked field by field, in the order of the keys of the
    first item. *)
Definition default_collate (items : list (MemeDataset.item R)) : result batch :=
  match items with
  | [] => Err IndexError
  | elem :: _ =>
      ids ← stack (MemeDataset.input_ids <$> items);
      mask ← stack (MemeDataset.attention_mask <$> items);
      px ← stack (MemeDataset.pixel_values <$> items);
      labels ← mapM (λ key,
                       ys ← mapM (λ it, dict_get (MemeDataset.labels it) key) items;
                       mret (key, ys))
                    (keys (MemeDataset.labels elem));
      mret (Batch (data <$> ids) (data <$> mask) px labels)
  end.

(** A data loader: the batches of each pass (a shuffling loader yields a
    new order on every pass) and the number of batches per pass. *)
Record DataLoader : Type := MkDataLoader {
  dl_pass : nat → list batch;
  dl_len : nat;
}.

(** The device the model and the batches are moved to. *)
Variable dev : torch_device.

(** The value of the cross-entropy of a batch of score rows against
    class indices. *)
Variable ce_value : list (list R) → list nat → R.

(** What a class index past the columns of the scores raises: the
    bounds check of the CPU kernel, or the device-side assertion of the
    CUDA kernel, which the host sees as a runtime error before the
    training step is over (reading the loss waits for the device). *)
Definition target_out_of_bounds (d : torch_device) : exn :=
  match d with
  | cpu => IndexError
  | cuda => RuntimeError
  end.

(** [nn.CrossEntropyLoss()]: the batch sizes must agree and every target
    must index a column of the scores. *)
Definition CrossEntropyLoss (input : list (list R)) (target : list nat) : result R :=
  if decide (length input = length target) then
    if bool_decide (Forall2 (λ row k, k < length row) input target)
    then Ok (ce_value input target)
    else Err (target_out_of_bounds dev)
  else Err ValueError.

Definition criterion : list (string * (list (list R) → list nat → result R)) :=
  (λ task, (task, CrossEntropyLoss)) <$> tasks.

(** Reverse-mode differentiation of the summed loss of a batch, the
    accumulation of gradients, the optimizer update, the random draws of
    dropout per forward pass, and the division behind the printed
    average. *)
Variable autograd : model → (nat → nat → bool) → batch → Grad.
Variable accumulate : option Grad → Grad → Grad.
Variable optimizer_step : OptState → model → option Grad → OptState * model.
Variable dropout_draw : nat → nat → nat → bool.
Variable average : R → nat → R.

Record state : Type := MkState {
  st_model : model;
  st_grad : option Grad;
  st_opt : OptState;
  st_draws : nat;
}.

Inductive event : Type :=
  | EvZeroGrad
  | EvForward (b : batch) (outs : list (string * list (list R)))
  | EvBackward (loss : R)
  | EvOptimizerStep.

(** [sum(criterion[task](outputs[task], labels[task]) for task in outputs)],
    accumulated from the left starting at zero. *)
Fixpoint sum_losses (crit : list (string * (list (list R) → list nat → result R)))
    (outs : list (string * list (list R))) (labels : list (string * list nat))
    (acc : R) (ks : list string) : result R :=
  match ks with
  | [] => Ok acc
  | task :: rest =>
      c ← dict_get crit task;
      o ← dict_get outs task;
      y ← dict_get labels task;
      l ← c o y;
      sum_losses crit outs labels (s_add acc l) rest
  end.

(** The body of the inner loop of [train_model]. *)
Definition train_batch (crit : list (string * (list (list R) → list nat → result R)))
    (st : state) (b : batch) : result (state * R * list event) :=
  let zeroed : option Grad := None in
  let keep := dropout_draw (st_draws st) in
  outs ← MultimodalModel.forward text_model image_model (st_model st) keep
            (b_input_ids b) (b_attention_mask b) (b_pixel_values b);
  loss ← sum_losses crit outs (b_labels b) s_zero (keys outs);
  let g := accumulate zeroed (autograd (st_model st) keep b) in
  let '(o', m') := optimizer_step (st_opt st) (st_model st) (Some g) in
  Ok (MkState m' (Some g) o' (S (st_draws st)), loss,
      [EvZeroGrad; EvForward b outs; EvBackward loss; EvOptimizerStep]).

Fixpoint train_batches (crit : list (string * (list (list R) → list nat → result R)))
    (st : state) (total_loss : R) (bs : list batch)
    : result (state * R * list event) :=
  match bs with
  | [] => Ok (st, total_loss, [])
  | b :: rest =>
      '(st1, loss, tr1) ← train_batch crit st b;
      '(st2, total, tr2) ← train_batches crit st1 (s_add total_loss loss) rest;
      Ok (st2, total, tr1 ++ tr2)
  end.

(** Epochs [epoch], [epoch + 1], ... for [n] more epochs; each ends by
    printing the average loss, a division by [len(dataloader)]. *)
Fixpoint train_epochs (crit : list (string * (list (list R) → list nat → result R)))
    (dl : DataLoader) (epoch n : nat) (st : state)
    : result (state * list event * list R) :=
  match n with
  | 0 => Ok (st, [], [])
  | S n' =>
      '(st1, total, tr1) ← train_batches crit st s_zero (dl_pass dl epoch);
      printed ← (if decide (dl_len dl = 0) then Err ZeroDivisionError
                 else Ok (average total (dl_len dl)));
      '(st2, tr2, prints) ← train_epochs crit dl (S epoch) n' st1;
      Ok (st2, tr1 ++ tr2, printed :: prints)
  end.

Definition default_epochs : nat := 2.

Definition train_model (st : state) (dl : DataLoader)
    (crit : list (string * (list (list R) → list nat → result R)))
    (epochs : nat) : result (state * list event * list R) :=
  let st0 := MkState (MultimodalModel.set_training true (st_model st))
               (st_grad st) (st_opt st) (st_draws st) in
  train_epochs crit dl 0 epochs st0.

(** [d[k].extend(xs)]. *)
Fixpoint dict_extend {V} (d : list (string * list V)) (k : string) (xs : list V)
    : result (list (string * list V)) :=
  match d with
  | [] => Err KeyError
  | (k', v) :: d' =>
      if decide (k' = k) then Ok ((k', v ++ xs) :: d')
      else d'' ← dict_extend d' k xs; Ok ((k', v) :: d'')
  end.

(** The inner [for task in preds] loop of [evaluate_model]. *)
Fixpoint accumulate_tasks (preds labels : list (string * list nat))
    (all_preds all_labels : list (string * list nat)) (ks : list string)
    : result (list (string * list nat) * list (string * list nat)) :=
  match ks with
  | [] => Ok (all_preds, all_labels)
  | task :: rest =>
      p ← dict_get preds task;
      all_preds' ← dict_extend all_preds task p;
      y ← dict_get labels task;
      all_labels' ← dict_extend all_labels task y;
      accumulate_tasks preds labels all_preds' all_labels' rest
  end.

Definition predict (m : model) (b : batch) : result (list (string * list nat)) :=
  outs ← MultimodalModel.forward text_model image_model m (λ _ _, true)
            (b_input_ids b) (b_attention_mask b) (b_pixel_values b);
  mapM (λ task,
          o ← dict_get outs task;
          p ← mapM argmax o;
          mret (task, p))
       (keys outs).

Fixpoint evaluate_batches (m : model)
    (all_preds all_labels : list (string * list nat)) (bs : list batch)
    : result (list (string * list nat) * list (string * list nat)) :=
  match bs with
  | [] => Ok (all_preds, all_labels)
  | b :: rest =>
      preds ← predict m b;
      '(all_preds', all_labels') ←
        accumulate_tasks preds (b_labels b) all_preds all_labels (keys preds);
      evaluate_batches m all_preds' all_labels' rest
  end.

Definition task_metrics (all_preds all_labels : list (string * list nat))
    (task : string) : result (string * (metrics.score * metrics.score)) :=
  y_true ← dict_get all_labels task;
  y_pred ← dict_get all_preds task;
  acc ← metrics.accuracy_score y_true y_pred;
  y_true' ← dict_get all_labels task;
  y_pred' ← dict_get all_preds task;
  f1 ← metrics.f1_score y_true' y_pred';
  mret (task, (acc, f1)).

(** [evaluate_model]: the model is switched to evaluation mode, the loop
    runs without gradient tracking, and the metrics of every task of the
    global [criterion] are computed from the accumulated lists. The
    model is returned next to the metrics to expose its final state. *)
Definition evaluate_model (m : model) (bs : list batch)
    : result (list (string * (metrics.score * metrics.score)) * model) :=
  let m' := MultimodalModel.set_training false m in
  let empty := (λ task, (task, @nil nat)) <$> keys criterion in
  '(all_preds, all_labels) ← evaluate_batches m' empty empty bs;
  ms ← mapM (task_metrics all_preds all_labels) (keys criterion);
  mret (ms, m').




(** A collated batch stacks as many labels per task as it has samples,
    and as many images as texts. *)
Definition collated (b : batch) : Prop :=
  length (b_pixel_values b) = length (b_input_ids b) ∧
  ∀ task, task ∈ tasks →
    ∃ y, dict_get (b_labels b) task = Ok y ∧ length y = length (b_input_ids b).

(** Every label of the batch is a class index of the head of its task. *)
Definition labels_in_range (b : batch) : Prop :=
  ∀ task c y, (task, c) ∈ num_classes →
    dict_get (b_labels b) task = Ok y → Forall (λ k, k < c) y.

(** What the loss functions need from a batch. *)
Definition trainable (b : batch) : Prop :=
  collated b ∧ labels_in_range b.

(** One step of mini-batch gradient descent as the specification words
    it, from one training state to the next. The forward pass of the
    current model over the batch gives the scores of the five heads. The
    objective is the sum over the five tasks of the cross-entropy between
    the scores of the head and the labels of the task. The backward pass
    gives the gradient of the objective at the current parameters, on its
    own since the gradients were cleared first. The optimizer step takes
    the current parameters and that gradient to the next parameters. *)
Inductive training_step : state → batch → state → list event → Prop :=
  | training_step_intro st b ss sh sa so sm ys yh ya yo ym g o' m' :
      MultimodalModel.forward text_model image_model (st_model st)
        (dropout_draw (st_draws st))
        (b_input_ids b) (b_attention_mask b) (b_pixel_values b)
      = Ok [ ("sentiment", ss); ("humor", sh); ("sarcasm", sa);
             ("offensive", so); ("motivational", sm) ] →
      dict_get (b_labels b) "sentiment" = Ok ys →
      dict_get (b_labels b) "humor" = Ok yh →
      dict_get (b_labels b) "sarcasm" = Ok ya →
      dict_get (b_labels b) "offensive" = Ok yo →
      dict_get (b_labels b) "motivational" = Ok ym →
      g = accumulate None
            (autograd (st_model st) (dropout_draw (st_draws st)) b) →
      optimizer_step (st_opt st) (st_model st) (Some g) = (o', m') →
      training_step st b
        (MkState m' (Some g) o' (S (st_draws st)))
        [ EvZeroGrad;
          EvForward b [ ("sentiment", ss); ("humor", sh); ("sarcasm", sa);
                        ("offensive", so); ("motivational", sm) ];
          EvBackward
            (s_add (s_add (s_add (s_add (s_add s_zero
               (ce_value ss ys)) (ce_value sh yh)) (ce_value sa ya))
               (ce_value so yo)) (ce_value sm ym));
          EvOptimizerStep ].

(** A run of training steps over a list of batches, in order, each step
    starting from the state the step before it left. *)
Inductive training_run : state → list batch → state → list event → Prop :=
  | training_run_nil st : training_run st [] st []
  | training_run_cons st st1 st2 b bs step tr :
      training_step st b st1 step →
      training_run st1 bs st2 tr →
      training_run st (b :: bs) st2 (step ++ tr).

(** The predictions of a batch for a task, and the (ground truth,
    prediction) pairs a traversal accumulates for it. *)
Definition preds_of (m : model) (b : batch) (task : string) : list nat :=
  match predict m b with
  | Ok preds => get_list preds task
  | Err _ => []
  end.

Definition sample_pairs (m : model) (bs : list batch) (task : string)
    : list (nat * nat) :=
  concat ((λ b, zip (get_list (b_labels b) task) (preds_of m b task)) <$> bs).

End Loops.

(** ** The train/validation split *)

Module model_selection.
Section Split.
Context {rng : Type}.
(** A generator seeded with an integer, and its permutation of
    [0 .. n-1]. *)
Variable RandomState : Z → rng.
Variable permutation : rng → nat → list nat.

(** [df.iloc[ind]] for a list of positions. *)
Definition take_rows (df : DataFrame) (ind : list nat) : result DataFrame :=
  mapM (λ i, match df !! i with
             | Some x => Ok x
             | None => Err IndexError
             end) ind.

(** Modelled from the spec: [train_test_split] belongs to the external
    model-selection library. With a fractional [test_size] the validation
    share is that fraction of the table rounded up and the training share
    is the rest; an empty training share is refused. The rows are drawn
    through one random permutation of the positions: its first part
    indexes the validation rows, the remainder the training rows. A given
    [random_state] seeds a generator of its own; without it the global
    generator is used. *)
Definition train_test_split (global : rng) (df : DataFrame) (test_size : Q)
    (random_state : option Z) : result (DataFrame * DataFrame) :=
  let n := length df in
  if Qle_bool test_size 0 || Qle_bool 1 test_size then Err ValueError
  else
    let n_test := Z.to_nat (Qceiling (test_size * inject_Z (Z.of_nat n))) in
    let n_train := n - n_test in
    if decide (n_train = 0) then Err ValueError
    else
      let g := match random_state with
               | Some seed => RandomState seed
               | None => global
               end in
      let perm := permutation g n in
      let ind_test := take n_test perm in
      let ind_train := take n_train (drop n_test perm) in
      train ← take_rows df ind_train;
      test ← take_rows df ind_test;
      mret (train, test).

(** The split of the notebook: a fifth for validation, seed 42. *)
Definition split_table (global : rng) (dataset_df : DataFrame)
    : result (DataFrame * DataFrame) :=
  train_test_split global dataset_df (2 # 10) (Some 42%Z).

End Split.
End model_selection.

(** ** Sample data

    A small table and stand-ins for the external pieces, to run the
    definitions on. *)

Module Samples.
Import MemeDataset.

Definition sample_row : row :=
  Row "image_1.jpg" "LOOK THERE MY FRIEND" "hilarious" "general"
      "not_offensive" "not_motivational" "very_positive".
Definition odd_humour_row : row :=
  Row "image_2.jpeg" "The best of" "lol" "general"
      "not_offensive" "motivational" "very_positive".
Definition odd_motivational_row : row :=
  Row "image_3.JPG" "Sam Thorne" "very_funny" "not_sarcastic"
      "not_offensive" "maybe" "positive".
Definition sample_wordpiece (text : string) : list Z :=
  [2298; 2045; 2026; 2767]%Z.
Definition sample_load_image (dir name : string) : result (tensor Q) :=
  Ok (Tensor [1; 3; 1; 1] [0; 0; 0]%Q).
Definition sample_dataset : t :=
  init [sample_row; odd_humour_row; odd_motivational_row] "images" None.

Definition sample_item : item Q :=
  Item
    (squeeze (enc_input_ids (tokenizer sample_wordpiece "LOOK THERE MY FRIEND" 128)))
    (squeeze (enc_attention_mask (tokenizer sample_wordpiece "LOOK THERE MY FRIEND" 128)))
    (Tensor [3] [0; 0; 0]%Q)
    [ ("sentiment", 4); ("humor", 3); ("sarcasm", 1); ("offensive", 0);
      ("motivational", 0) ].

Definition narrow_dataset : t := init [sample_row] "images" (Some 1).

(** Exact rationals as scalars. *)
#[export] Instance Q_Scalar : Scalar Q := {|
  s_zero := 0%Q;
  s_add := Qplus;
  s_mul := Qmult;
  s_relu := λ x, if Qle_bool 0 x then x else 0%Q;
  s_scale := λ p x, (x / (1 - p))%Q;
  s_ltb := λ x y, negb (Qle_bool y x);
|}.

(** Encoders that answer every sample with a single all-zero hidden
    vector of width 768. *)
Definition sample_text_model (tp : unit) (input_ids attention_mask : list (list Z))
    : result (list (list (list Q))) :=
  Ok ((λ _, [replicate 768 0%Q]) <$> input_ids).
Definition sample_image_model (ip : unit) (pixel_values : list (tensor Q))
    : result (list (list (list Q))) :=
  Ok ((λ _, [replicate 768 0%Q]) <$> pixel_values).

Definition sample_model : MultimodalModel.t Q unit unit :=
  MultimodalModel.init tt tt (λ _ _ _, 0%Q) (λ _ _, 0%Q).

Definition sample_keep (i j : nat) : bool := true.
Definition sample_input_ids : list (list Z) := [[101; 102]%Z; [101; 102]%Z].
Definition sample_attention_mask : list (list Z) := [[1; 1]%Z; [1; 1]%Z].
Definition sample_pixel_values : list (tensor Q) :=
  [Tensor [3; 1; 1] [0; 0; 0]%Q; Tensor [3; 1; 1] [0; 0; 0]%Q].
Definition sample_hidden : list (list (list Q)) :=
  [[replicate 768 0%Q]; [replicate 768 0%Q]].

Definition sample_rows : list row :=
  [sample_row; odd_humour_row; odd_motivational_row; sample_row; sample_row].
Definition sample_permutation (g : unit) (n : nat) : list nat :=
  reverse (seq 0 n).

(** Two collated batches. *)
Definition sample_batch : batch (R:=Q) :=
  Batch sample_input_ids sample_attention_mask sample_pixel_values
    [ ("sentiment", [4; 4]); ("humor", [3; 0]); ("sarcasm", [1; 1]);
      ("offensive", [0; 0]); ("motivational", [0; 1]) ].
Definition other_batch : batch (R:=Q) :=
  Batch [[101; 102]%Z] [[1; 1]%Z] [Tensor [3; 1; 1] [0; 0; 0]%Q]
    [ ("sentiment", [2]); ("humor", [1]); ("sarcasm", [0]);
      ("offensive", [3]); ("motivational", [1]) ].
Definition sample_ce_value (input : list (list Q)) (target : list nat) : Q := 0%Q.

(** Stand-ins for differentiation and the optimizer, and a loader of two
    batches per pass that swaps them on odd passes. *)
Definition sample_autograd (m : MultimodalModel.t Q unit unit)
    (keep : nat → nat → bool) (b : batch (R:=Q)) : unit := tt.
Definition sample_accumulate (old : option unit) (g : unit) : unit := g.
Definition sample_optimizer_step (o : nat) (m : MultimodalModel.t Q unit unit)
    (g : option unit) : nat * MultimodalModel.t Q unit unit := (S o, m).
Definition sample_dropout_draw (draw i j : nat) : bool := true.
Definition sample_average (total : Q) (n : nat) : Q :=
  (total / inject_Z (Z.of_nat n))%Q.
Definition sample_loader : DataLoader (R:=Q) :=
  MkDataLoader
    (λ e, if Nat.even e then [sample_batch; other_batch]
          else [other_batch; sample_batch])
    2.
Definition sample_state : state (R:=Q) (Grad:=unit) (OptState:=nat) :=
  MkState sample_model None 0 0.

End Samples.

(** ** Further definitions: datasets over partitions, tensor sizes, the
    printed averages *)

(** [dataset.labels_df = df]: the table of a dataset is replaced, its
    image directory and maximum length stay. *)
Definition with_labels_df (ds : MemeDataset.t) (df : DataFrame) : MemeDataset.t :=
  MemeDataset.Make df (MemeDataset.image_dir ds) (MemeDataset.text_max_length ds).

(** The number of entries of a tensor of a given shape. *)
Definition numel (sh : list nat) : nat := foldr Nat.mul 1 sh.

Section Averages.
Context {R : Type} `{Scalar R}.
Variable average : R → nat → R.

(** The losses handed to [backward], in the order of the trace. *)
Fixpoint backward_losses (tr : list (event (R:=R))) : list R :=
  match tr with
  | [] => []
  | EvBackward loss :: tr' => loss :: backward_losses tr'
  | _ :: tr' => backward_losses tr'
  end.

(** What [train_model] prints, read off the losses of a run: per epoch,
    the losses of the batches of its pass added up from zero, left to
    right, and divided by [len(dataloader)]. *)
Fixpoint epoch_prints (dl : DataLoader (R:=R)) (epoch n : nat) (losses : list R)
    : list R :=
  match n with
  | 0 => []
  | S n' =>
      let k := length (dl_pass dl epoch) in
      average (foldl s_add s_zero (take k losses)) (dl_len dl)
        :: epoch_prints dl (S epoch) n' (drop k losses)
  end.

End Averages.

(** Further sample data. *)

Module MoreSamples.
Import MemeDataset Samples.

(** A partition holding the third and the first row of the sample table
    under their index labels. *)
Definition sample_partition : DataFrame :=
  [(2, odd_motivational_row); (0, sample_row)].

(** An image pipeline that finds no file. *)
Definition failing_load_image (dir name : string) : result (tensor Q) :=
  Err OSError.

(** A model whose humor head differs from the one of [sample_model]. *)
Definition other_model : MultimodalModel.t Q unit unit :=
  MultimodalModel.init tt tt
    (λ name _ _, if decide (name = "humor") then 1%Q else 0%Q) (λ _ _, 0%Q).

(** A second draw of dropout. *)
Definition other_keep (i j : nat) : bool := Nat.even j.

(** A loader without batches, and one whose second batch carries a
    sentiment label past the five classes. *)
Definition empty_loader : DataLoader (R:=Q) := MkDataLoader (λ _, []) 0.
Definition bad_batch : batch (R:=Q) :=
  Batch [[101; 102]%Z] [[1; 1]%Z] [Tensor [3; 1; 1] [0; 0; 0]%Q]
    [ ("sentiment", [7]); ("humor", [1]); ("sarcasm", [0]);
      ("offensive", [3]); ("motivational", [1]) ].
Definition bad_loader : DataLoader (R:=Q) :=
  MkDataLoader (λ _, [sample_batch; bad_batch]) 2.

(** An encoder that answers two samples whatever the batch. *)
Definition two_sample_image_model (ip : unit) (pixel_values : list (tensor Q))
    : result (list (list (list Q))) :=
  Ok sample_hidden.

(** An image pipeline whose pictures differ in height, and the item it
    gives for the third row of the sample table. *)
Definition varying_load_image (dir name : string) : result (tensor Q) :=
  if decide (name = "image_1.jpg") then Ok (Tensor [1; 3; 1; 1] [0; 0; 0]%Q)
  else Ok (Tensor [1; 3; 2; 1] [0; 0; 0; 0; 0; 0]%Q).
Definition wide_item : item Q :=
  Item
    (squeeze (enc_input_ids (tokenizer sample_wordpiece "Sam Thorne" 128)))
    (squeeze (enc_attention_mask (tokenizer sample_wordpiece "Sam Thorne" 128)))
    (Tensor [3; 2] [0; 0; 0; 0; 0; 0]%Q)
    [ ("sentiment", 3); ("humor", 2); ("sarcasm", 0); ("offensive", 0);
      ("motivational", 0) ].

End MoreSamples.

(** * Properties *)

(** ** Generic facts about [result], dictionaries and [mapM] *)

Lemma result_bind_Ok {A B} (f : A → result B) (r : result A) (b : B) :
  r ≫= f = Ok b ↔ ∃ a, r = Ok a ∧ f a = Ok b.
Proof.
  destruct r as [a|e]; simpl.
  - split; [eauto|]. intros (a' & [= <-] & ?). done.
  - split; [done|]. intros (a' & ? & ?). done.
Qed.

Lemma result_fmap_Ok {A B} (f : A → B) (r : result A) (b : B) :
  f <$> r = Ok b ↔ ∃ a, r = Ok a ∧ b = f a.
Proof.
  destruct r as [a|e]; simpl.
  - split; [intros [= <-]; eauto|]. intros (a' & [= <-] & ->). done.
  - split; [done|]. intros (a' & ? & ?). done.
Qed.

Lemma mapM_Ok_Forall2 {A B} (f : A → result B) (l : list A) (k : list B) :
  mapM f l = Ok k ↔ Forall2 (λ a b, f a = Ok b) l k.
Proof.
  revert k. induction l as [|a l IH]; intros k; simpl.
  - split; [intros [= <-]; constructor|]. by inversion 1.
  - split.
    + intros Hm. apply result_bind_Ok in Hm as (b & Hb & Hm).
      apply result_bind_Ok in Hm as (k' & Hk & [= <-]).
      constructor; [done|]. by apply IH.
    + inversion 1 as [|? b ? k' Hb Hk]; subst.
      apply IH in Hk. by rewrite Hb, Hk.
Qed.

Lemma mapM_Ok_total {A B} (f : A → result B) (g : A → B) (l : list A) :
  Forall (λ a, f a = Ok (g a)) l → mapM f l = Ok (g <$> l).
Proof.
  intros Hl. apply mapM_Ok_Forall2.
  induction Hl; simpl; constructor; auto.
Qed.

(** ** MemeDataset: label encoding *)

Module MemeDatasetFacts.
Import MemeDataset Samples.

Lemma index_Ok_lookup (l : list string) (x : string) (k : nat) :
  index l x = Ok k → l !! k = Some x.
Proof.
  revert k. induction l as [|y l IH]; intros k; simpl; [done|].
  case_decide as Hy.
  - intros [= <-]. by subst.
  - intros Hk. apply result_fmap_Ok in Hk as (k' & Hk' & ->). simpl. auto.
Qed.

Lemma index_Ok_lt (l : list string) (x : string) (k : nat) :
  index l x = Ok k → k < length l.
Proof. intros Hk. apply index_Ok_lookup in Hk. by eapply lookup_lt_Some. Qed.

Lemma index_not_elem (l : list string) (x : string) :
  x ∉ l → index l x = Err ValueError.
Proof.
  induction l as [|y l IH]; simpl; [done|].
  intros Hx. apply not_elem_of_cons in Hx as [Hne Hx].
  case_decide; [congruence|]. by rewrite IH.
Qed.

Lemma index_elem (l : list string) (x : string) :
  x ∈ l → ∃ k, index l x = Ok k.
Proof.
  induction l as [|y l IH]; simpl; [by intros ?%elem_of_nil|].
  intros Hx. case_decide; [eauto|].
  apply elem_of_cons in Hx as [->|Hx]; [done|].
  destruct (IH Hx) as [k ->]. simpl. eauto.
Qed.

Section GetItemFacts.
Context {pixel : Type}.
Variable wordpiece : string → list Z.
Variable load_image : string → string → result (tensor pixel).

(** [__getitem__] with the constant dictionary lookups resolved. *)
Lemma getitem_eq (ds : t) (idx : nat) :
  getitem wordpiece load_image ds idx =
  r ← iloc (labels_df ds) idx;
  px ← load_image (image_dir ds) (image_name r);
  ks ← index ["very_negative"; "negative"; "neutral"; "positive"; "very_positive"]
         (overall_sentiment r);
  kh ← index ["not_funny"; "funny"; "very_funny"; "hilarious"] (humour r);
  ka ← index ["not_sarcastic"; "general"; "twisted_meaning"; "very_twisted"]
         (sarcasm r);
  ko ← index ["not_offensive"; "slight"; "very_offensive"; "hateful_offensive"]
         (offensive r);
  mret (Item
    (squeeze (enc_input_ids
       (tokenizer wordpiece (text_corrected r) (text_max_length ds))))
    (squeeze (enc_attention_mask
       (tokenizer wordpiece (text_corrected r) (text_max_length ds))))
    (squeeze px)
    [ ("sentiment", ks); ("humor", kh); ("sarcasm", ka); ("offensive", ko);
      ("motivational",
       if decide (motivational r = "motivational") then 1 else 0) ]).
Proof. reflexivity. Qed.

(** What a successful [__getitem__] went through, step by step. *)
Lemma getitem_Ok_inv (ds : t) (idx : nat) (it : item pixel) :
  getitem wordpiece load_image ds idx = Ok it →
  ∃ r px ks kh ka ko,
    iloc (labels_df ds) idx = Ok r ∧
    load_image (image_dir ds) (image_name r) = Ok px ∧
    index ["very_negative"; "negative"; "neutral"; "positive"; "very_positive"]
      (overall_sentiment r) = Ok ks ∧
    index ["not_funny"; "funny"; "very_funny"; "hilarious"] (humour r) = Ok kh ∧
    index ["not_sarcastic"; "general"; "twisted_meaning"; "very_twisted"]
      (sarcasm r) = Ok ka ∧
    index ["not_offensive"; "slight"; "very_offensive"; "hateful_offensive"]
      (offensive r) = Ok ko ∧
    it = Item
           (squeeze (enc_input_ids
              (tokenizer wordpiece (text_corrected r) (text_max_length ds))))
           (squeeze (enc_attention_mask
              (tokenizer wordpiece (text_corrected r) (text_max_length ds))))
           (squeeze px)
           [ ("sentiment", ks); ("humor", kh); ("sarcasm", ka);
             ("offensive", ko);
             ("motivational",
              if decide (motivational r = "motivational") then 1 else 0) ].
Proof.
  unfold getitem. intros Hg.
  apply result_bind_Ok in Hg as (r & Hr & Hg).
  apply result_bind_Ok in Hg as (px & Hpx & Hg).
  apply result_bind_Ok in Hg as (vs & [= <-] & Hg).
  apply result_bind_Ok in Hg as (ks & Hks & Hg).
  apply result_bind_Ok in Hg as (vh & [= <-] & Hg).
  apply result_bind_Ok in Hg as (kh & Hkh & Hg).
  apply result_bind_Ok in Hg as (va & [= <-] & Hg).
  apply result_bind_Ok in Hg as (ka & Hka & Hg).
  apply result_bind_Ok in Hg as (vo & [= <-] & Hg).
  apply result_bind_Ok in Hg as (ko & Hko & Hg).
  injection Hg as <-.
  by exists r, px, ks, kh, ka, ko.
Qed.


Lemma index_cases (l : list string) (x : string) :
  (∃ k, index l x = Ok k) ∨ index l x = Err ValueError.
Proof.
  destruct (decide (x ∈ l)) as [Hx|Hx].
  - left. by apply index_elem.
  - right. by apply index_not_elem.
Qed.

(** [__getitem__] returns whenever the row exists, its image loads and
    its four looked-up labels are in their vocabularies. *)
Lemma getitem_total (ds : t) (idx : nat) (r : row) (px : tensor pixel) :
  iloc (labels_df ds) idx = Ok r →
  load_image (image_dir ds) (image_name r) = Ok px →
  (∀ task vocab lbl,
     task ∈ ["sentiment"; "humor"; "sarcasm"; "offensive"] →
     dict_get label_maps task = Ok vocab →
     label_column task r = Ok lbl →
     lbl ∈ vocab) →
  is_Ok (getitem wordpiece load_image ds idx).
Proof.
  intros Hr Hpx Hin. rewrite getitem_eq, Hr. cbn [mbind result_bind].
  rewrite Hpx. cbn [mbind result_bind].
  destruct (index_elem _ _
    (Hin "sentiment" _ _ ltac:(compute_done) eq_refl eq_refl)) as [ks ->].
  cbn [mbind result_bind].
  destruct (index_elem _ _
    (Hin "humor" _ _ ltac:(compute_done) eq_refl eq_refl)) as [kh ->].
  cbn [mbind result_bind].
  destruct (index_elem _ _
    (Hin "sarcasm" _ _ ltac:(compute_done) eq_refl eq_refl)) as [ka ->].
  cbn [mbind result_bind].
  destruct (index_elem _ _
    (Hin "offensive" _ _ ltac:(compute_done) eq_refl eq_refl)) as [ko ->].
  by eexists.
Qed.

(** C1 (amended): for each of the four tasks encoded through
    [list.index] (sentiment, humor, sarcasm, offensive), a row whose
    label is missing from the vocabulary of the task never yields an
    item, and once the image of the row has been loaded the failure is
    the lookup error [ValueError]. *)
Theorem getitem_unknown_label_fails (ds : t) (idx : nat) (r : row)
    (task lbl : string) (vocab : list string) :
  iloc (labels_df ds) idx = Ok r →
  task ∈ ["sentiment"; "humor"; "sarcasm"; "offensive"] →
  label_column task r = Ok lbl →
  dict_get label_maps task = Ok vocab →
  lbl ∉ vocab →
  (∀ it, getitem wordpiece load_image ds idx ≠ Ok it) ∧
  (is_Ok (load_image (image_dir ds) (image_name r)) →
   getitem wordpiece load_image ds idx = Err ValueError).
Proof.
  intros Hr Htask Hcol Hvocab Hlbl.
  assert (Hbad :
    index ["very_negative"; "negative"; "neutral"; "positive"; "very_positive"]
      (overall_sentiment r) = Err ValueError ∨
    index ["not_funny"; "funny"; "very_funny"; "hilarious"] (humour r)
      = Err ValueError ∨
    index ["not_sarcastic"; "general"; "twisted_meaning"; "very_twisted"]
      (sarcasm r) = Err ValueError ∨
    index ["not_offensive"; "slight"; "very_offensive"; "hateful_offensive"]
      (offensive r) = Err ValueError).
  { repeat (apply elem_of_cons in Htask as [->|Htask]);
      [| | | |by apply elem_of_nil in Htask];
      injection Hcol as <-; injection Hvocab as <-;
      apply index_not_elem in Hlbl; tauto. }
  split.
  - intros it Hit. apply getitem_Ok_inv in Hit
      as (r' & px & ks & kh & ka & ko & Hr' & _ & Hs & Hh & Ha & Ho & _).
    rewrite Hr in Hr'. injection Hr' as <-.
    destruct Hbad as [Hb|[Hb|[Hb|Hb]]]; congruence.
  - intros [px Hpx]. rewrite getitem_eq, Hr. cbn [mbind result_bind].
    rewrite Hpx. cbn [mbind result_bind].
    destruct (index_cases
      ["very_negative"; "negative"; "neutral"; "positive"; "very_positive"]
      (overall_sentiment r)) as [[ks Hs]| ->]; [rewrite Hs|done].
    cbn [mbind result_bind].
    destruct (index_cases ["not_funny"; "funny"; "very_funny"; "hilarious"]
      (humour r)) as [[kh Hh]| ->]; [rewrite Hh|done].
    cbn [mbind result_bind].
    destruct (index_cases
      ["not_sarcastic"; "general"; "twisted_meaning"; "very_twisted"]
      (sarcasm r)) as [[ka Ha]| ->]; [rewrite Ha|done].
    cbn [mbind result_bind].
    destruct (index_cases
      ["not_offensive"; "slight"; "very_offensive"; "hateful_offensive"]
      (offensive r)) as [[ko Ho]| ->]; [|done].
    destruct Hbad as [Hb|[Hb|[Hb|Hb]]]; congruence.
Qed.


(** C2 (amended): after a successful [__getitem__], reading the stored
    class index of a task back through its vocabulary returns the label
    of the row for sentiment, humor, sarcasm and offensive; for
    motivational it does so exactly when the label is one of the two
    vocabulary strings. *)
Theorem getitem_labels_decode (ds : t) (idx : nat) (r : row)
    (it : item pixel) (task lbl : string) :
  iloc (labels_df ds) idx = Ok r →
  getitem wordpiece load_image ds idx = Ok it →
  task ∈ tasks →
  label_column task r = Ok lbl →
  ∃ k, dict_get (labels it) task = Ok k ∧
       (decode task k = Ok lbl ↔
        (task = "motivational" → lbl ∈ ["not_motivational"; "motivational"])).
Proof.
  intros Hr Hit Htask Hcol.
  apply getitem_Ok_inv in Hit
    as (r' & px & ks & kh & ka & ko & Hr' & _ & Hs & Hh & Ha & Ho & ->).
  rewrite Hr in Hr'. injection Hr' as <-.
  unfold tasks in Htask.
  repeat (apply elem_of_cons in Htask as [->|Htask]);
    [| | | | |by apply elem_of_nil in Htask]; injection Hcol as <-.
  - exists ks. split; [done|].
    apply index_Ok_lookup in Hs. unfold decode. simpl dict_get.
    cbn [mbind result_bind]. rewrite Hs. done.
  - exists kh. split; [done|].
    apply index_Ok_lookup in Hh. unfold decode. simpl dict_get.
    cbn [mbind result_bind]. rewrite Hh. done.
  - exists ka. split; [done|].
    apply index_Ok_lookup in Ha. unfold decode. simpl dict_get.
    cbn [mbind result_bind]. rewrite Ha. done.
  - exists ko. split; [done|].
    apply index_Ok_lookup in Ho. unfold decode. simpl dict_get.
    cbn [mbind result_bind]. rewrite Ho. done.
  - eexists. split; [reflexivity|].
    destruct (decide (motivational r = "motivational")) as [Hm|Hm].
    + rewrite Hm. split; [intros _ _; rewrite !elem_of_cons; auto|done].
    + split.
      * intros [= <-] _. rewrite !elem_of_cons; auto.
      * intros Hin. specialize (Hin eq_refl).
        apply elem_of_cons in Hin as [->|Hin]; [done|].
        apply elem_of_cons in Hin as [Hin|Hin]; [congruence|].
        by apply elem_of_nil in Hin.
Qed.

(** The tokenizer on a maximum that leaves room for a token of the text:
    the text cut to [max_length - 2] tokens between the special tokens,
    then the padding. *)
Lemma tokenizer_fits (text : string) (L : nat) :
  3 ≤ L →
  let tokens := wordpiece text in
  let kept := take (L - 2) tokens in
  let fill := L - 2 - length tokens in
  tokenizer wordpiece text L =
    Encoding
      (Tensor [1; L]
         (cls_token_id :: kept ++ [sep_token_id] ++ replicate fill pad_token_id))
      (Tensor [1; L] (replicate (length kept + 2) 1%Z ++ replicate fill 0%Z)).
Proof.
  intros HL tokens kept fill. unfold tokenizer. fold tokens.
  set (kept' := if decide (length tokens + 2 - L < length tokens)
                then take (length tokens - (length tokens + 2 - L)) tokens
                else tokens).
  assert (Hkept : kept' = kept).
  { subst kept' kept. case_decide as Hcut.
    - destruct (decide (length tokens + 2 ≤ L)) as [Hle|Hgt].
      + by rewrite !take_ge by lia.
      + f_equal. lia.
    - by rewrite take_ge by lia. }
  rewrite Hkept.
  assert (Hlen : length (cls_token_id :: kept ++ [sep_token_id]) = length kept + 2).
  { cbn [length]. rewrite List.length_app. cbn [length]. lia. }
  rewrite Hlen.
  assert (Hk : length kept = (L - 2) `min` length tokens).
  { subst kept. apply length_take. }
  replace (L - (length kept + 2)) with fill by (subst fill; lia).
  replace (length kept + 2 + fill) with L by (subst fill; lia).
  by rewrite <- app_comm_cons, <- app_assoc.
Qed.

(** C4 (amended): for a configured [text_max_length] of at least three,
    the [input_ids] and [attention_mask] of a returned item are vectors
    of exactly that length: the token ids of the text cut to fit between
    the two special tokens and padded up to the maximum, and the mask of
    what is not padding. They depend on the text and the maximum
    only. *)
Theorem getitem_token_tensors (ds : t) (idx : nat) (r : row) (it : item pixel) :
  3 ≤ text_max_length ds →
  iloc (labels_df ds) idx = Ok r →
  getitem wordpiece load_image ds idx = Ok it →
  let L := text_max_length ds in
  let tokens := wordpiece (text_corrected r) in
  let kept := take (L - 2) tokens in
  (shape (input_ids it) = [L] ∧ length (data (input_ids it)) = L) ∧
  (shape (attention_mask it) = [L] ∧ length (data (attention_mask it)) = L) ∧
  data (input_ids it) =
    cls_token_id :: kept ++ [sep_token_id]
      ++ replicate (L - 2 - length tokens) pad_token_id ∧
  data (attention_mask it) =
    replicate (length kept + 2) 1%Z ++ replicate (L - 2 - length tokens) 0%Z ∧
  (∀ ds' idx' r' it',
     text_max_length ds' = L →
     iloc (labels_df ds') idx' = Ok r' →
     text_corrected r' = text_corrected r →
     getitem wordpiece load_image ds' idx' = Ok it' →
     input_ids it' = input_ids it ∧ attention_mask it' = attention_mask it).
Proof.
  intros HL Hr Hit L tokens kept.
  apply getitem_Ok_inv in Hit
    as (r0 & px & ks & kh & ka & ko & Hr0 & _ & _ & _ & _ & _ & ->).
  rewrite Hr in Hr0. injection Hr0 as <-.
  assert (Hdet : ∀ ds' idx' r' it',
     text_max_length ds' = L →
     iloc (labels_df ds') idx' = Ok r' →
     text_corrected r' = text_corrected r →
     getitem wordpiece load_image ds' idx' = Ok it' →
     input_ids it' =
       squeeze (enc_input_ids (tokenizer wordpiece (text_corrected r) L)) ∧
     attention_mask it' =
       squeeze (enc_attention_mask (tokenizer wordpiece (text_corrected r) L))).
  { intros ds' idx' r' it' HL' Hr' Htext Hit'.
    apply getitem_Ok_inv in Hit'
      as (r0 & px' & ks' & kh' & ka' & ko' & Hr0 & _ & _ & _ & _ & _ & ->).
    rewrite Hr' in Hr0. injection Hr0 as <-.
    cbn [input_ids attention_mask]. by rewrite HL', Htext. }
  assert (Hk : length kept = (L - 2) `min` length tokens).
  { subst kept. apply length_take. }
  split_and!; [..|exact Hdet]; cbn [input_ids attention_mask]; fold L;
    rewrite (tokenizer_fits (text_corrected r) L HL);
    cbn [enc_input_ids enc_attention_mask squeeze shape data];
    fold tokens; fold kept.
  - rewrite filter_cons_False by (intros ?; done).
    rewrite filter_cons_True by lia. done.
  - cbn [length]. rewrite !List.length_app, length_replicate. cbn [length]. lia.
  - rewrite filter_cons_False by (intros ?; done).
    rewrite filter_cons_True by lia. done.
  - rewrite List.length_app, !length_replicate. lia.
  - done.
  - done.
Qed.

End GetItemFacts.

Lemma getitem_unknown_label_fails_witness :
  (∀ it, getitem sample_wordpiece sample_load_image sample_dataset 1 ≠ Ok it) ∧
  (is_Ok (sample_load_image (image_dir sample_dataset) (image_name odd_humour_row)) →
   getitem sample_wordpiece sample_load_image sample_dataset 1 = Err ValueError).
Proof.
  apply (getitem_unknown_label_fails sample_wordpiece sample_load_image
           sample_dataset 1 odd_humour_row "humor" "lol"
           ["not_funny"; "funny"; "very_funny"; "hilarious"]).
  - reflexivity.
  - compute_done.
  - reflexivity.
  - reflexivity.
  - compute_done.
Defined.

(** C1 as stated fails for the motivational task: an unknown label is
    encoded as class 0 and the item is returned. *)
Lemma getitem_motivational_unknown_label_returns :
  ¬ (∀ (ds : t) (idx : nat) (r : row) (task lbl : string) (vocab : list string),
       iloc (labels_df ds) idx = Ok r →
       task ∈ tasks →
       label_column task r = Ok lbl →
       dict_get label_maps task = Ok vocab →
       lbl ∉ vocab →
       ∀ it, getitem sample_wordpiece sample_load_image ds idx ≠ Ok it).
Proof.
  intros Hall.
  eapply (Hall sample_dataset 2 odd_motivational_row "motivational" "maybe"
            ["not_motivational"; "motivational"]).
  - reflexivity.
  - compute_done.
  - reflexivity.
  - reflexivity.
  - compute_done.
  - reflexivity.
Qed.

Lemma getitem_labels_decode_witness :
  ∃ k, dict_get (labels sample_item) "humor" = Ok k ∧
       (decode "humor" k = Ok "hilarious" ↔
        ("humor" = "motivational" →
         "hilarious" ∈ ["not_motivational"; "motivational"])).
Proof.
  apply (getitem_labels_decode sample_wordpiece sample_load_image
           sample_dataset 0 sample_row sample_item "humor" "hilarious").
  - reflexivity.
  - reflexivity.
  - compute_done.
  - reflexivity.
Defined.

(** C2 as stated fails for the motivational task: the stored index of an
    unknown label decodes to another string. *)
Lemma getitem_motivational_decode_differs :
  ¬ (∀ (ds : t) (idx : nat) (r : row) (it : item Q) (task lbl : string),
       iloc (labels_df ds) idx = Ok r →
       getitem sample_wordpiece sample_load_image ds idx = Ok it →
       task ∈ tasks →
       label_column task r = Ok lbl →
       ∃ k, dict_get (labels it) task = Ok k ∧ decode task k = Ok lbl).
Proof.
  intros Hall.
  destruct (Hall sample_dataset 2 odd_motivational_row
              (Item (Tensor [128] (data (enc_input_ids
                       (tokenizer sample_wordpiece "Sam Thorne" 128))))
                    (Tensor [128] (data (enc_attention_mask
                       (tokenizer sample_wordpiece "Sam Thorne" 128))))
                    (Tensor [3] [0; 0; 0]%Q)
                    [("sentiment", 3); ("humor", 2); ("sarcasm", 0);
                     ("offensive", 0); ("motivational", 0)])
              "motivational" "maybe") as (k & Hk & Hdec).
  - reflexivity.
  - reflexivity.
  - compute_done.
  - reflexivity.
  - injection Hk as <-. discriminate Hdec.
Qed.

Lemma getitem_token_tensors_witness :
  shape (input_ids sample_item) = [128] ∧
  length (data (input_ids sample_item)) = 128.
Proof.
  refine (proj1 (getitem_token_tensors sample_wordpiece sample_load_image
                   sample_dataset 0 sample_row sample_item _ _ _)).
  - vm_compute. lia.
  - reflexivity.
  - reflexivity.
Defined.

(** C4 as stated fails for a maximum of one: the tokenizer does not cut
    below the two special tokens, the four tokens of the text stay, and
    the item carries six ids. *)
Lemma getitem_max_length_one_overlong :
  ¬ (∀ (ds : t) (idx : nat) (it : item Q),
       getitem sample_wordpiece sample_load_image ds idx = Ok it →
       (shape (input_ids it) = [text_max_length ds] ∧
        length (data (input_ids it)) = text_max_length ds) ∧
       (shape (attention_mask it) = [text_max_length ds] ∧
        length (data (attention_mask it)) = text_max_length ds)).
Proof.
  intros Hall.
  destruct (Hall narrow_dataset 0
              (Item (Tensor [6] [101; 2298; 2045; 2026; 2767; 102]%Z)
                 (Tensor [6] [1; 1; 1; 1; 1; 1]%Z) (Tensor [3] [0; 0; 0]%Q)
                 [ ("sentiment", 4); ("humor", 3); ("sarcasm", 1);
                   ("offensive", 0); ("motivational", 0) ])) as [[Hs Hl] _].
  - reflexivity.
  - discriminate Hl.
Qed.

End MemeDatasetFacts.

(** ** MultimodalModel: the forward pass *)

Module ModelFacts.
Import nn MultimodalModel.

Section ForwardFacts.
Context {R : Type} `{Scalar R} {TextParams ImageParams : Type}.
Variable text_model :
  TextParams → list (list Z) → list (list Z) → result (list (list (list R))).
Variable image_model :
  ImageParams → list (tensor R) → result (list (list (list R))).

Lemma length_affine (l : Linear R) (x : list R) (i o : nat) :
  Linear_shape i o l → length (affine l x) = o.
Proof.
  intros (_ & _ & Hw & _ & Hb). unfold affine.
  rewrite length_zip_with, length_fmap. lia.
Qed.

Lemma Linear_forward_Ok (l : Linear R) (x : list (list R)) (i o : nat) :
  Linear_shape i o l →
  Forall (λ row, length row = i) x →
  Linear_forward l x = Ok (affine l <$> x).
Proof.
  intros (Hi & _) Hx. unfold Linear_forward.
  rewrite bool_decide_eq_true_2; [done|]. by rewrite Hi.
Qed.

Lemma Forall_affine (l : Linear R) (x : list (list R)) (i o : nat) :
  Linear_shape i o l → Forall (λ row, length row = o) (affine l <$> x).
Proof.
  intros Hl. apply Forall_fmap, Forall_true. intros row. simpl.
  by eapply length_affine.
Qed.

Lemma first_token_Ok (h : list (list (list R))) (n : nat) :
  encoder_output n h → first_token h = Ok (pooled <$> h).
Proof.
  intros [_ Hh]. apply mapM_Ok_total.
  eapply Forall_impl; [exact Hh|]. intros [|v s] [Hne _]; [by destruct Hne|done].
Qed.

Lemma pooled_width (h : list (list (list R))) (n : nat) :
  encoder_output n h → Forall (λ s, length (pooled s) = 768) h.
Proof.
  intros [_ Hh]. eapply Forall_impl; [exact Hh|].
  intros [|v s] [Hne Hs]; [by destruct Hne|]. by inversion Hs.
Qed.

Lemma length_dropout_row (p : Q) (keep : nat → bool) (row : list R) :
  length (dropout_row p keep row) = length row.
Proof. unfold dropout_row. by rewrite length_imap. Qed.

(** The batch-level pipeline of the source and the sample-level
    wording of the specification build the same fused vectors. *)
Lemma fused_batch_eq (f : Linear R) (p : Q) (train : bool)
    (keep : nat → nat → bool) (h_text h_image : list (list (list R))) :
  (if train
   then imap (λ i row, dropout_row p (keep i) row)
          (fmap (M:=list) (fmap (M:=list) s_relu)
             (affine f <$> zip_with app (pooled <$> h_text) (pooled <$> h_image)))
   else fmap (M:=list) (fmap (M:=list) s_relu)
          (affine f <$> zip_with app (pooled <$> h_text) (pooled <$> h_image)))
  = imap (λ i hh, fused_vector f p train (keep i) hh.1 hh.2)
      (zip h_text h_image).
Proof.
  apply list_eq. intros i. unfold fused_vector.
  destruct train; cbn zeta;
    repeat (rewrite ?list_lookup_fmap, ?lookup_zip_with, ?list_lookup_imap);
    destruct (h_text !! i), (h_image !! i); done.
Qed.

Lemma joint_width (h_text h_image : list (list (list R))) (n : nat) :
  encoder_output n h_text →
  encoder_output n h_image →
  Forall (λ row, length row = 768 * 2)
    (zip_with app (pooled <$> h_text) (pooled <$> h_image)).
Proof.
  intros Ht%pooled_width Hi%pooled_width.
  apply Forall_lookup. intros i row Hrow.
  apply lookup_zip_with_Some in Hrow as (a & b & -> & Ha & Hb).
  apply list_lookup_fmap_Some in Ha as (sa & -> & Ha).
  apply list_lookup_fmap_Some in Hb as (sb & -> & Hb).
  rewrite List.length_app.
  rewrite (Forall_lookup_1 _ _ _ _ Ht Ha), (Forall_lookup_1 _ _ _ _ Hi Hb).
  done.
Qed.

Lemma fused_width (f : Linear R) (p : Q) (train : bool) (keep : nat → bool)
    (h_text h_image : list (list R)) :
  Linear_shape (768 * 2) 512 f →
  length (fused_vector f p train keep h_text h_image) = 512.
Proof.
  intros Hf. unfold fused_vector.
  destruct train; rewrite ?length_dropout_row, length_fmap;
    by eapply length_affine.
Qed.

(** The five head lookups of the dictionary comprehension, resolved. *)
Lemma heads_eq (fused : list (list R)) (hs hh ha ho hm : Linear R) :
  mapM (λ task,
          head ← dict_get
            [ ("sentiment", hs); ("humor", hh); ("sarcasm", ha);
              ("offensive", ho); ("motivational", hm) ] task;
          scores ← Linear_forward head fused;
          mret (task, scores))
       (keys [ ("sentiment", hs); ("humor", hh); ("sarcasm", ha);
               ("offensive", ho); ("motivational", hm) ])
  = (s ← Linear_forward hs fused;
     h ← Linear_forward hh fused;
     a ← Linear_forward ha fused;
     o ← Linear_forward ho fused;
     m ← Linear_forward hm fused;
     mret [ ("sentiment", s); ("humor", h); ("sarcasm", a);
            ("offensive", o); ("motivational", m) ]).
Proof.
  cbv -[Linear_forward]. destruct (Linear_forward hs fused); [|done].
  destruct (Linear_forward hh fused); [|done].
  destruct (Linear_forward ha fused); [|done].
  destruct (Linear_forward ho fused); [|done].
  destruct (Linear_forward hm fused); done.
Qed.

(** With the layer shapes of [__init__] and encoder outputs for the
    same number of samples, the forward pass succeeds and computes
    what [forward_spec] describes. *)
Lemma forward_eq_spec (m : t R TextParams ImageParams)
    (keep : nat → nat → bool) (input_ids attention_mask : list (list Z))
    (pixel_values : list (tensor R)) (h_text h_image : list (list (list R)))
    (n : nat) (f : Linear R) (p : Q) :
  architecture m →
  fusion m = [LinearLayer f; ReLU; Dropout p] →
  text_model (text_params m) input_ids attention_mask = Ok h_text →
  encoder_output n h_text →
  image_model (image_params m) pixel_values = Ok h_image →
  encoder_output n h_image →
  forward text_model image_model m keep input_ids attention_mask pixel_values
  = Ok (forward_spec f p (classifier m) (training m) keep h_text h_image).
Proof.
  intros (f' & p' & hs & hh & ha & ho & hm & Hfus & Hcl & Hf & Hs & Hh & Ha & Ho & Hm)
    Hfus' Htext Hot Himage Hoi.
  rewrite Hfus in Hfus'. injection Hfus' as -> ->.
  unfold forward. rewrite Htext. cbn [mbind result_bind].
  rewrite (first_token_Ok _ _ Hot). cbn [mbind result_bind].
  rewrite Himage. cbn [mbind result_bind].
  rewrite (first_token_Ok _ _ Hoi). cbn [mbind result_bind].
  unfold cat_dim1. rewrite decide_True
    by (rewrite !length_fmap; destruct Hot as [-> _], Hoi as [-> _]; done).
  cbn [mbind result_bind]. rewrite Hfus.
  cbn [Sequential_forward layer_forward mbind result_bind].
  rewrite (Linear_forward_Ok f _ (768 * 2) 512 Hf)
    by (by eapply joint_width).
  cbn [mbind result_bind]. rewrite fused_batch_eq.
  rewrite Hcl, heads_eq.
  assert (Hfused : Forall (λ row, length row = 512)
            (imap (λ i hh, fused_vector f p (training m) (keep i) hh.1 hh.2)
               (zip h_text h_image))).
  { apply Forall_lookup. intros i row Hrow.
    rewrite list_lookup_imap in Hrow.
    destruct (zip h_text h_image !! i); [|done].
    injection Hrow as <-. by apply fused_width. }
  rewrite (Linear_forward_Ok hs _ 512 5 Hs Hfused).
  rewrite (Linear_forward_Ok hh _ 512 4 Hh Hfused).
  rewrite (Linear_forward_Ok ha _ 512 4 Ha Hfused).
  rewrite (Linear_forward_Ok ho _ 512 4 Ho Hfused).
  rewrite (Linear_forward_Ok hm _ 512 2 Hm Hfused).
  reflexivity.
Qed.


Lemma Linear_init_shape (i o : nat) (w0 : nat → nat → R) (b0 : nat → R) :
  Linear_shape i o (Linear_init i o w0 b0).
Proof.
  unfold Linear_shape, Linear_init. cbn [in_features out_features weight bias].
  rewrite !length_fmap, !List.length_seq. split_and!; try done.
  apply Forall_fmap, Forall_true. intros r. simpl.
  by rewrite length_fmap, List.length_seq.
Qed.

Lemma architecture_init (tp : TextParams) (ip : ImageParams)
    (w0 : string → nat → nat → R) (b0 : string → nat → R) :
  architecture (init tp ip w0 b0).
Proof.
  unfold architecture, init. cbn [fusion classifier].
  do 7 eexists. split_and!; try reflexivity; apply Linear_init_shape.
Qed.

Lemma architecture_set_training (b : bool) (m : t R TextParams ImageParams) :
  architecture m → architecture (set_training b m).
Proof. done. Qed.

Lemma length_zip_same {A B} (l : list A) (k : list B) (n : nat) :
  length l = n → length k = n → length (zip l k) = n.
Proof. intros Hl Hk. rewrite length_zip_with. lia. Qed.

Lemma forward_spec_shapes (f hs hh ha ho hm : Linear R) (p : Q) (train : bool)
    (keep : nat → nat → bool) (h_text h_image : list (list (list R))) (n : nat) :
  Linear_shape 512 5 hs → Linear_shape 512 4 hh → Linear_shape 512 4 ha →
  Linear_shape 512 4 ho → Linear_shape 512 2 hm →
  length h_text = n → length h_image = n →
  ∃ ss sh sa so sm,
    forward_spec f p
      [ ("sentiment", hs); ("humor", hh); ("sarcasm", ha);
        ("offensive", ho); ("motivational", hm) ] train keep h_text h_image
    = [ ("sentiment", ss); ("humor", sh); ("sarcasm", sa);
        ("offensive", so); ("motivational", sm) ] ∧
    scores_shape n 5 ss ∧ scores_shape n 4 sh ∧ scores_shape n 4 sa ∧
    scores_shape n 4 so ∧ scores_shape n 2 sm.
Proof.
  intros Hs Hh Ha Ho Hm Hnt Hni.
  unfold forward_spec. cbn [fmap list_fmap fst snd].
  do 5 eexists. split; [reflexivity|].
  assert (Hlen : ∀ head : Linear R,
    length (affine head <$>
              imap (λ i hh, fused_vector f p train (keep i) hh.1 hh.2)
                (zip h_text h_image)) = n).
  { intros head. rewrite length_fmap, length_imap. by apply length_zip_same. }
  unfold scores_shape. rewrite !Hlen.
  split_and!; try done; by eapply Forall_affine.
Qed.

(** C3: for a batch of [N] samples the forward pass returns a
    dictionary with exactly the keys sentiment, humor, sarcasm,
    offensive and motivational, in this order, whose values are score
    tensors of shape N x 5, N x 4, N x 4, N x 4 and N x 2. *)
Theorem forward_output_shapes (m : t R TextParams ImageParams)
    (keep : nat → nat → bool) (input_ids attention_mask : list (list Z))
    (pixel_values : list (tensor R)) (h_text h_image : list (list (list R))) :
  architecture m →
  length pixel_values = length input_ids →
  text_model (text_params m) input_ids attention_mask = Ok h_text →
  encoder_output (length input_ids) h_text →
  image_model (image_params m) pixel_values = Ok h_image →
  encoder_output (length pixel_values) h_image →
  ∃ ss sh sa so sm,
    forward text_model image_model m keep input_ids attention_mask pixel_values
    = Ok [ ("sentiment", ss); ("humor", sh); ("sarcasm", sa);
           ("offensive", so); ("motivational", sm) ] ∧
    scores_shape (length input_ids) 5 ss ∧
    scores_shape (length input_ids) 4 sh ∧
    scores_shape (length input_ids) 4 sa ∧
    scores_shape (length input_ids) 4 so ∧
    scores_shape (length input_ids) 2 sm.
Proof.
  intros Harch Hn Htext Hot Himage Hoi. rewrite Hn in Hoi.
  pose proof Harch as
    (f & p & hs & hh & ha & ho & hm & Hfus & Hcl & Hf & Hs & Hh & Ha & Ho & Hm).
  rewrite (forward_eq_spec m keep _ _ _ h_text h_image _ f p
             Harch Hfus Htext Hot Himage Hoi).
  rewrite Hcl. destruct Hot as [Hnt _], Hoi as [Hni _].
  destruct (forward_spec_shapes f hs hh ha ho hm p (training m) keep
              h_text h_image _ Hs Hh Ha Ho Hm Hnt Hni)
    as (ss & sh & sa & so & sm & -> & Hshapes).
  by exists ss, sh, sa, so, sm.
Qed.

(** C8: the forward pass reduces each encoder output to the hidden
    vector of its first token (width 768), concatenates the text and
    image vectors (width 1536), sends the concatenation through the one
    shared linear layer, activation and dropout down to width 512, and
    applies every head as a linear map to that fused vector; the scores
    are returned as they come out of the heads. *)
Theorem forward_structure (m : t R TextParams ImageParams)
    (keep : nat → nat → bool) (input_ids attention_mask : list (list Z))
    (pixel_values : list (tensor R)) (h_text h_image : list (list (list R)))
    (n : nat) (f : Linear R) (p : Q) :
  architecture m →
  fusion m = [LinearLayer f; ReLU; Dropout p] →
  text_model (text_params m) input_ids attention_mask = Ok h_text →
  encoder_output n h_text →
  image_model (image_params m) pixel_values = Ok h_image →
  encoder_output n h_image →
  forward text_model image_model m keep input_ids attention_mask pixel_values
  = Ok (forward_spec f p (classifier m) (training m) keep h_text h_image) ∧
  (in_features f = 1536 ∧ out_features f = 512) ∧
  (∀ i ht hi,
     h_text !! i = Some ht → h_image !! i = Some hi →
     length (pooled ht) = 768 ∧ length (pooled hi) = 768 ∧
     length (pooled ht ++ pooled hi) = 1536 ∧
     length (fused_vector f p (training m) (keep i) ht hi) = 512).
Proof.
  intros Harch Hfus Htext Hot Himage Hoi.
  split; [by eapply forward_eq_spec|].
  destruct Harch as
    (f' & p' & hs & hh & ha & ho & hm & Hfus' & Hcl & Hf & _).
  rewrite Hfus in Hfus'. injection Hfus' as <- <-.
  split; [destruct Hf as (-> & -> & _); done|].
  intros i ht hi Ht Hi.
  pose proof (Forall_lookup_1 _ _ _ _ (pooled_width _ _ Hot) Ht) as Hwt.
  pose proof (Forall_lookup_1 _ _ _ _ (pooled_width _ _ Hoi) Hi) as Hwi.
  cbn beta in Hwt, Hwi.
  split_and!; [done|done| |by apply fused_width].
  by rewrite List.length_app, Hwt, Hwi.
Qed.

End ForwardFacts.

Import Samples.

Lemma sample_hidden_ok : encoder_output (R:=Q) 2 sample_hidden.
Proof.
  split; [reflexivity|].
  repeat constructor; try done; apply length_replicate.
Qed.

Lemma forward_output_shapes_witness :
  ∃ ss sh sa so sm,
    forward sample_text_model sample_image_model sample_model sample_keep
      sample_input_ids sample_attention_mask sample_pixel_values
    = Ok [ ("sentiment", ss); ("humor", sh); ("sarcasm", sa);
           ("offensive", so); ("motivational", sm) ] ∧
    scores_shape 2 5 ss ∧ scores_shape 2 4 sh ∧ scores_shape 2 4 sa ∧
    scores_shape 2 4 so ∧ scores_shape 2 2 sm.
Proof.
  apply (forward_output_shapes sample_text_model sample_image_model sample_model
           sample_keep sample_input_ids sample_attention_mask sample_pixel_values
           sample_hidden sample_hidden).
  - apply architecture_init.
  - reflexivity.
  - reflexivity.
  - exact sample_hidden_ok.
  - reflexivity.
  - exact sample_hidden_ok.
Defined.

Lemma forward_structure_witness :
  forward sample_text_model sample_image_model sample_model sample_keep
    sample_input_ids sample_attention_mask sample_pixel_values
  = Ok (forward_spec
          (Linear_init (768 * 2) 512 (λ _ _, 0%Q) (λ _, 0%Q)) (2 # 10)
          (classifier sample_model) true sample_keep sample_hidden sample_hidden).
Proof.
  refine (proj1 (forward_structure sample_text_model sample_image_model
                   sample_model sample_keep sample_input_ids sample_attention_mask
                   sample_pixel_values sample_hidden sample_hidden 2
                   (Linear_init (768 * 2) 512 (λ _ _, 0%Q) (λ _, 0%Q)) (2 # 10)
                   _ _ _ _ _ _)).
  - apply architecture_init.
  - reflexivity.
  - reflexivity.
  - exact sample_hidden_ok.
  - reflexivity.
  - exact sample_hidden_ok.
Defined.

End ModelFacts.

(** ** Labels against the heads of the model *)

Module LabelRangeFacts.
Import nn MemeDataset MemeDatasetFacts MultimodalModel Samples.

Section LabelRange.
Context {R : Type} `{Scalar R} {TextParams ImageParams : Type}.
Variable wordpiece : string → list Z.
Variable load_image : string → string → result (tensor R).

Lemma getitem_labels_bounds (ds : MemeDataset.t) (idx : nat) (it : item R) :
  getitem wordpiece load_image ds idx = Ok it →
  ∃ ks kh ka ko km,
    labels it = [ ("sentiment", ks); ("humor", kh); ("sarcasm", ka);
                  ("offensive", ko); ("motivational", km) ] ∧
    ks < 5 ∧ kh < 4 ∧ ka < 4 ∧ ko < 4 ∧ km < 2.
Proof.
  intros Hit. apply getitem_Ok_inv in Hit
    as (r & px & ks & kh & ka & ko & _ & _ & Hks & Hkh & Hka & Hko & ->).
  apply index_Ok_lt in Hks, Hkh, Hka, Hko. cbn [length] in Hks, Hkh, Hka, Hko.
  eexists ks, kh, ka, ko, _. split; [reflexivity|].
  split_and!; try done. case_decide; lia.
Qed.

Lemma stack_Ok {A} (ts ts' : list (tensor A)) : stack ts = Ok ts' → ts' = ts.
Proof.
  unfold stack. destruct ts as [|t0 ts0]; [done|].
  case_bool_decide; [|done]. by intros [= <-].
Qed.

(** A column of labels stacked over the items of a batch. *)
Lemma stacked_labels_bound (items : list (item R)) (k : string) (c : nat)
    (ys : list nat) :
  Forall (λ it, ∃ v, dict_get (labels it) k = Ok v ∧ v < c) items →
  mapM (λ it, dict_get (labels it) k) items = Ok ys →
  length ys = length items ∧ Forall (λ v, v < c) ys.
Proof.
  intros Hitems Hys. apply mapM_Ok_Forall2 in Hys.
  induction Hys as [|it y items ys Hy _ IH]; [done|].
  apply Forall_cons in Hitems as [(v & Hv & Hlt) Hitems].
  destruct (IH Hitems) as [Hlen Hall].
  rewrite Hy in Hv. injection Hv as ->.
  split; [cbn; by f_equal|]. by constructor.
Qed.

Lemma default_collate_trainable (ds : MemeDataset.t) (items : list (item R))
    (b : batch) :
  Forall (λ it, ∃ idx, getitem wordpiece load_image ds idx = Ok it) items →
  default_collate items = Ok b →
  trainable b.
Proof.
  intros Hitems Hb.
  assert (Hcol : ∀ k c,
    (k, c) ∈ num_classes →
    Forall (λ it, ∃ v, dict_get (labels it) k = Ok v ∧ v < c) items).
  { intros k c Hkc. eapply Forall_impl; [exact Hitems|].
    intros it [idx Hit]. cbn beta.
    apply getitem_labels_bounds in Hit
      as (ks & kh & ka & ko & km & -> & Hs & Hh & Ha & Ho & Hm).
    unfold num_classes in Hkc.
    repeat (apply elem_of_cons in Hkc as [[= -> ->]|Hkc]);
      [by eexists..|by apply elem_of_nil in Hkc]. }
  destruct items as [|elem items']; [done|].
  unfold default_collate in Hb.
  apply result_bind_Ok in Hb as (ids & ->%stack_Ok & Hb).
  apply result_bind_Ok in Hb as (mask & ->%stack_Ok & Hb).
  apply result_bind_Ok in Hb as (px & ->%stack_Ok & Hb).
  apply result_bind_Ok in Hb as (lab & Hlab & [= <-]).
  apply Forall_cons in Hitems as [[idx0 Hit0] _].
  apply getitem_labels_bounds in Hit0 as (ks & kh & ka & ko & km & Hl0 & _).
  rewrite Hl0 in Hlab. cbn [keys fmap list_fmap fst mapM] in Hlab.
  apply result_bind_Ok in Hlab as ([? ys] & Hs & Hlab).
  apply result_bind_Ok in Hs as (ys' & Hys & [= <- <-]).
  apply result_bind_Ok in Hlab as (lab1 & Hlab & [= <-]).
  apply result_bind_Ok in Hlab as ([? yh] & Hh & Hlab).
  apply result_bind_Ok in Hh as (yh' & Hyh & [= <- <-]).
  apply result_bind_Ok in Hlab as (lab2 & Hlab & [= <-]).
  apply result_bind_Ok in Hlab as ([? ya] & Ha & Hlab).
  apply result_bind_Ok in Ha as (ya' & Hya & [= <- <-]).
  apply result_bind_Ok in Hlab as (lab3 & Hlab & [= <-]).
  apply result_bind_Ok in Hlab as ([? yo] & Ho & Hlab).
  apply result_bind_Ok in Ho as (yo' & Hyo & [= <- <-]).
  apply result_bind_Ok in Hlab as (lab4 & Hlab & [= <-]).
  apply result_bind_Ok in Hlab as ([? ym] & Hm & Hlab).
  apply result_bind_Ok in Hm as (ym' & Hym & [= <- <-]).
  apply result_bind_Ok in Hlab as (lab5 & [= <-] & [= <-]).
  destruct (stacked_labels_bound _ _ 5 _ (Hcol "sentiment" 5 ltac:(compute_done)) Hys)
    as [Hls Hrs].
  destruct (stacked_labels_bound _ _ 4 _ (Hcol "humor" 4 ltac:(compute_done)) Hyh)
    as [Hlh Hrh].
  destruct (stacked_labels_bound _ _ 4 _ (Hcol "sarcasm" 4 ltac:(compute_done)) Hya)
    as [Hla Hra].
  destruct (stacked_labels_bound _ _ 4 _ (Hcol "offensive" 4 ltac:(compute_done)) Hyo)
    as [Hlo Hro].
  destruct (stacked_labels_bound _ _ 2 _ (Hcol "motivational" 2 ltac:(compute_done)) Hym)
    as [Hlm Hrm].
  assert (Hlen : ∀ A B (g : A → B) l, length (list_fmap A B g l) = length l)
    by (intros; apply length_fmap).
  cbn [length] in Hls, Hlh, Hla, Hlo, Hlm.
  split; [split|].
  - cbn [b_pixel_values b_input_ids length]. by rewrite !Hlen.
  - intros task Hk. cbn [b_labels b_input_ids length]. rewrite !Hlen.
    unfold tasks in Hk.
    repeat (apply elem_of_cons in Hk as [->|Hk]);
      [by eexists..|by apply elem_of_nil in Hk].
  - intros task c y Hkc Hy. cbn [b_labels] in Hy. unfold num_classes in Hkc.
    repeat (apply elem_of_cons in Hkc as [[= -> ->]|Hkc]);
      [..|by apply elem_of_nil in Hkc]; by injection Hy as <-.
Qed.

(** C10: every class index stored by a successful [__getitem__] is a
    valid column of the head of its task: below 5 for sentiment, below 4
    for humor, sarcasm and offensive, below 2 for motivational. *)
Theorem getitem_labels_in_range (ds : MemeDataset.t) (idx : nat) (it : item R)
    (m : MultimodalModel.t R TextParams ImageParams)
    (task : string) (head : Linear R) :
  getitem wordpiece load_image ds idx = Ok it →
  architecture m →
  (task, head) ∈ classifier m →
  ∃ k c, dict_get (labels it) task = Ok k ∧
         out_features head = c ∧ k < c ∧ (task, c) ∈ num_classes.
Proof.
  intros Hit (f & p & hs & hh & ha & ho & hm & _ & Hcl & _ & Hs & Hh & Ha & Ho & Hm)
    Hin.
  apply getitem_labels_bounds in Hit
    as (ks & kh & ka & ko & km & -> & Hks & Hkh & Hka & Hko & Hkm).
  rewrite Hcl in Hin. unfold num_classes.
  repeat (apply elem_of_cons in Hin as [[= -> ->]|Hin]);
    [| | | | |by apply elem_of_nil in Hin].
  - destruct Hs as (_ & -> & _). exists ks, 5.
    split_and!; [done|done|done|rewrite !elem_of_cons; auto].
  - destruct Hh as (_ & -> & _). exists kh, 4.
    split_and!; [done|done|done|rewrite !elem_of_cons; auto].
  - destruct Ha as (_ & -> & _). exists ka, 4.
    split_and!; [done|done|done|rewrite !elem_of_cons; auto].
  - destruct Ho as (_ & -> & _). exists ko, 4.
    split_and!; [done|done|done|rewrite !elem_of_cons; auto 6].
  - destruct Hm as (_ & -> & _). exists km, 2.
    split_and!; [done|done|done|rewrite !elem_of_cons; auto 7].
Qed.

End LabelRange.

Lemma getitem_labels_in_range_witness :
  ∃ k c, dict_get (labels sample_item) "humor" = Ok k ∧
         out_features (Linear_init 512 4 (λ _ _, 0%Q) (λ _, 0%Q)) = c ∧ k < c ∧
         ("humor", c) ∈ num_classes.
Proof.
  apply (getitem_labels_in_range sample_wordpiece sample_load_image
           sample_dataset 0 sample_item sample_model "humor"
           (Linear_init 512 4 (λ _ _, 0%Q) (λ _, 0%Q))).
  - reflexivity.
  - apply ModelFacts.architecture_init.
  - unfold sample_model, init. cbn [classifier].
    rewrite !elem_of_cons. auto.
Defined.

End LabelRangeFacts.

(** ** The train/validation split *)

Module SplitFacts.
Import model_selection Samples.

Lemma read_csv_index (rows : list row) :
  (read_csv rows).*1 = seq 0 (length rows).
Proof.
  unfold read_csv. apply list_eq. intros i.
  rewrite list_lookup_fmap, list_lookup_imap.
  destruct (rows !! i) as [r|] eqn:Hr; simpl.
  - symmetry. apply lookup_seq. split; [done|]. by eapply lookup_lt_Some.
  - symmetry. apply lookup_seq_ge. by apply lookup_ge_None.
Qed.

Lemma read_csv_NoDup (rows : list row) : NoDup (read_csv rows).*1.
Proof. rewrite read_csv_index. apply NoDup_seq. Qed.

Lemma take_rows_Ok (df : DataFrame) (ind : list nat) (rows : DataFrame) :
  take_rows df ind = Ok rows → (λ i, df !! i) <$> ind = Some <$> rows.
Proof.
  unfold take_rows. intros Hm. apply mapM_Ok_Forall2 in Hm.
  induction Hm as [|i x ind rows Hx _ IH]; [done|].
  cbn [fmap list_fmap]. f_equal; [|exact IH].
  destruct (df !! i); congruence.
Qed.

Lemma take_rows_total (df : DataFrame) (ind : list nat) :
  Forall (λ i, i < length df) ind → is_Ok (take_rows df ind).
Proof.
  intros Hind. unfold take_rows, is_Ok.
  induction Hind as [|i ind Hi _ [rows IH]]; [by eexists|].
  apply lookup_lt_is_Some in Hi as [x Hx].
  exists (x :: rows). cbn [mapM]. rewrite Hx. cbn [mbind result_bind].
  by rewrite IH.
Qed.

Lemma lookup_all (df : DataFrame) :
  (λ i, df !! i) <$> seq 0 (length df) = Some <$> df.
Proof.
  apply list_eq. intros i. rewrite !list_lookup_fmap.
  destruct (df !! i) as [x|] eqn:Hx; simpl.
  - rewrite lookup_seq_lt by (by eapply lookup_lt_Some). simpl. by rewrite Hx.
  - rewrite lookup_seq_ge; [done|]. by apply lookup_ge_None.
Qed.

Lemma Some_Permutation_inv {A} (l k : list A) :
  Permutation (Some <$> l) (Some <$> k) → Permutation l k.
Proof.
  intros Hp. destruct l as [|d l'].
  - apply Permutation_nil_l in Hp. by destruct k.
  - apply (fmap_Permutation (from_option id d)) in Hp.
    rewrite <- !list_fmap_compose in Hp.
    by rewrite !list_fmap_id in Hp.
Qed.

(** The validation share of [n] rows stays below [n] from two rows on. *)
Lemma test_share_lt (n : nat) :
  2 ≤ n → Z.to_nat (Qceiling ((2 # 10) * inject_Z (Z.of_nat n))) < n.
Proof.
  intros Hn. unfold Qceiling, Qfloor, Qopp, Qmult, inject_Z. cbn [Qnum Qden].
  assert (Hd : (- (- (2 * Z.of_nat n) / Z.pos (10 * 1)) < Z.of_nat n)%Z).
  { change (Z.pos (10 * 1)) with 10%Z.
    pose proof (Z.div_mod (- (2 * Z.of_nat n)) 10 ltac:(done)) as Hdm.
    pose proof (Z.mod_pos_bound (- (2 * Z.of_nat n)) 10 ltac:(done)) as Hb.
    lia. }
  lia.
Qed.

Section SplitProperties.
Context {rng : Type}.
Variable RandomState : Z → rng.
Variable permutation : rng → nat → list nat.

(** The contract of the generator: a permutation of the positions. *)
Hypothesis permutation_spec : ∀ g n, Permutation (permutation g n) (seq 0 n).

Lemma train_test_split_Ok_inv (global : rng) (df : DataFrame) (test_size : Q)
    (random_state : option Z) (train test : DataFrame) :
  train_test_split RandomState permutation global df test_size random_state
    = Ok (train, test) →
  ∃ perm n_test,
    Permutation perm (seq 0 (length df)) ∧
    n_test < length df ∧
    take_rows df (drop n_test perm) = Ok train ∧
    take_rows df (take n_test perm) = Ok test.
Proof.
  unfold train_test_split. intros Hs.
  destruct (Qle_bool test_size 0 || Qle_bool 1 test_size); [done|].
  set (n_test := Z.to_nat _) in Hs.
  set (perm := permutation _ _) in Hs.
  case_decide as Hz; [done|].
  apply result_bind_Ok in Hs as (tr & Htr & Hs).
  apply result_bind_Ok in Hs as (te & Hte & [= <- <-]).
  exists perm, n_test. split; [apply permutation_spec|].
  split; [lia|]. split; [|exact Hte].
  rewrite take_ge in Htr; [exact Htr|].
  unfold perm.
  rewrite length_drop, (Permutation_length (permutation_spec _ _)), List.length_seq.
  lia.
Qed.

Lemma permutation_in_range (g : rng) (n : nat) :
  Forall (λ i, i < n) (permutation g n).
Proof.
  apply Forall_forall. intros i Hi.
  rewrite (permutation_spec g n) in Hi. apply elem_of_seq in Hi. lia.
Qed.

(** C7: the split of the notebook (a fifth for validation, seed 42) does
    not depend on the state of the global generator, so that two runs on
    the same table give the same partitions; it succeeds on every table of
    at least two rows; and the partitions it returns have no index label in
    common and together hold every row of the table exactly once. *)
Theorem split_table_partition (global1 global2 : rng) (df : DataFrame) :
  NoDup df.*1 →
  split_table RandomState permutation global1 df
    = split_table RandomState permutation global2 df ∧
  (2 ≤ length df → is_Ok (split_table RandomState permutation global1 df)) ∧
  (∀ train val,
     split_table RandomState permutation global1 df = Ok (train, val) →
     Permutation (train ++ val) df ∧
     (∀ i, i ∈ train.*1 → i ∉ val.*1)).
Proof.
  intros Hnd. split; [reflexivity|]. split.
  - intros Hn. unfold split_table, train_test_split.
    change (Qle_bool (2 # 10) 0 || Qle_bool 1 (2 # 10)) with false.
    cbn match. pose proof (test_share_lt _ Hn) as Hlt.
    set (n_test := Z.to_nat _) in *.
    rewrite decide_False by lia.
    set (perm := permutation _ _).
    pose proof (permutation_in_range (RandomState 42) (length df)) as Hperm.
    fold perm in Hperm.
    destruct (take_rows_total df (take (length df - n_test) (drop n_test perm)))
      as [train Htrain]; [by apply Forall_take, Forall_drop|].
    destruct (take_rows_total df (take n_test perm))
      as [val Hval]; [by apply Forall_take|].
    rewrite Htrain. cbn [mbind result_bind]. rewrite Hval. by eexists.
  - intros train val Hs. unfold split_table in Hs.
    apply train_test_split_Ok_inv in Hs
      as (perm & n_test & Hperm & Hlt & Htrain & Hval).
    apply take_rows_Ok in Htrain, Hval.
    assert (Hp : Permutation (train ++ val) df).
    { apply Some_Permutation_inv.
      rewrite fmap_app, <- Htrain, <- Hval, <- fmap_app, <- lookup_all.
      apply fmap_Permutation.
      rewrite <- Hperm, (Permutation_app_comm (drop n_test perm)).
      by rewrite take_drop. }
    split; [exact Hp|].
    assert (Hnd' : NoDup (train.*1 ++ val.*1)).
    { rewrite <- fmap_app. by rewrite Hp. }
    apply NoDup_app in Hnd' as (_ & Hdis & _). exact Hdis.
Qed.

End SplitProperties.

(** A generator that reverses the positions. *)
Lemma reverse_seq_Permutation (g : unit) (n : nat) :
  Permutation (sample_permutation g n) (seq 0 n).
Proof. unfold sample_permutation. by rewrite reverse_Permutation. Qed.

Lemma split_table_partition_witness :
  split_table (λ _, tt) sample_permutation tt (read_csv sample_rows)
    = split_table (λ _, tt) sample_permutation tt (read_csv sample_rows) ∧
  (2 ≤ length (read_csv sample_rows) →
   is_Ok (split_table (λ _, tt) sample_permutation tt (read_csv sample_rows))) ∧
  (∀ train val,
     split_table (λ _, tt) sample_permutation tt (read_csv sample_rows)
       = Ok (train, val) →
     Permutation (train ++ val) (read_csv sample_rows) ∧
     (∀ i, i ∈ train.*1 → i ∉ val.*1)).
Proof.
  apply (split_table_partition (λ _, tt) sample_permutation
           reverse_seq_Permutation tt tt (read_csv sample_rows)).
  apply read_csv_NoDup.
Defined.

End SplitFacts.

(** ** Metrics: independence of the order of the pairs *)

Module MetricsFacts.
Import metrics.

Lemma count_pairs_Permutation (P : nat * nat → bool) (l k : list (nat * nat)) :
  Permutation l k → count_pairs P l = count_pairs P k.
Proof. intros Hp. unfold count_pairs. by rewrite Hp. Qed.

Lemma max_list_Permutation (l k : list nat) :
  Permutation l k → max_list l = max_list k.
Proof.
  induction 1 as [|x l k _ IH|x y l|l k j _ IH1 _ IH2]; simpl; lia.
Qed.

Lemma unique_labels_Permutation (t1 p1 t2 p2 : list nat) :
  Permutation t1 t2 → Permutation p1 p2 →
  unique_labels t1 p1 = unique_labels t2 p2.
Proof.
  intros Ht Hp. unfold unique_labels.
  rewrite (max_list_Permutation (t1 ++ p1) (t2 ++ p2)) by (by rewrite Ht, Hp).
  apply list_filter_iff. intros c. by rewrite Ht, Hp.
Qed.

Lemma f1_class_Permutation (l k : list (nat * nat)) (c : nat) :
  Permutation l k → f1_class l c = f1_class k c.
Proof.
  intros Hp. unfold f1_class, true_positives, false_positives, false_negatives.
  by rewrite !(count_pairs_Permutation _ l k Hp).
Qed.

(** Accuracy and macro-F1 are functions of the multiset of
    (ground truth, prediction) pairs. *)
Lemma metrics_Permutation (l k : list (nat * nat)) :
  Permutation l k →
  accuracy_score l.*1 l.*2 = accuracy_score k.*1 k.*2 ∧
  f1_score l.*1 l.*2 = f1_score k.*1 k.*2.
Proof.
  intros Hp. unfold accuracy_score, f1_score.
  rewrite !decide_True by (by rewrite !length_fmap).
  rewrite !zip_fst_snd. split.
  - by rewrite (count_pairs_Permutation _ l k Hp), (Permutation_length Hp).
  - rewrite (unique_labels_Permutation l.*1 l.*2 k.*1 k.*2)
      by (by apply fmap_Permutation).
    do 2 f_equal. apply list_fmap_ext. intros _ c _.
    by apply f1_class_Permutation.
Qed.

End MetricsFacts.

(** ** Dictionaries of lists *)

Lemma dict_get_elem {V} (d : list (string * V)) (k : string) :
  k ∈ keys d → is_Ok (dict_get d k).
Proof.
  unfold keys, is_Ok. induction d as [|[k0 v] d IH]; simpl.
  - by intros ?%elem_of_nil.
  - intros Hk. case_decide; [eauto|].
    apply elem_of_cons in Hk as [->|Hk]; [done|]. auto.
Qed.

Lemma dict_get_get_list {V} (d : list (string * list V)) (k : string) :
  k ∈ keys d → dict_get d k = Ok (get_list d k).
Proof.
  intros [v Hv]%dict_get_elem. unfold get_list. by rewrite Hv.
Qed.

Lemma dict_get_Ok_elem {V} (d : list (string * V)) (k : string) (v : V) :
  dict_get d k = Ok v → k ∈ keys d.
Proof.
  unfold keys. induction d as [|[k0 v0] d IH]; simpl; [done|].
  case_decide as Hk.
  - intros _. subst. apply elem_of_cons. by left.
  - intros Hd. apply elem_of_cons. right. auto.
Qed.

Lemma dict_extend_spec {V} (d : list (string * list V)) (k : string) (xs : list V) :
  k ∈ keys d →
  ∃ d', dict_extend d k xs = Ok d' ∧ keys d' = keys d ∧
        ∀ k', get_list d' k' = get_list d k' ++ (if decide (k' = k) then xs else []).
Proof.
  unfold keys, get_list. induction d as [|[k0 v] d IH]; simpl.
  - by intros ?%elem_of_nil.
  - intros Hk. destruct (decide (k0 = k)) as [->|Hne].
    + eexists. split; [done|]. split; [done|].
      intros k'. simpl. destruct (decide (k = k')) as [->|Hk'].
      * by rewrite decide_True by done.
      * rewrite decide_False by done. by rewrite app_nil_r.
    + apply elem_of_cons in Hk as [->|Hk]; [done|].
      destruct (IH Hk) as (d' & -> & Hkeys & Hget).
      eexists. split; [done|]. split; [by rewrite !fmap_cons, Hkeys|]. simpl.
      intros k'. destruct (decide (k0 = k')) as [->|Hk'].
      * rewrite decide_False by done. by rewrite app_nil_r.
      * apply Hget.
Qed.

(** ** The evaluation loop *)

Module EvaluateFacts.
Import nn MultimodalModel ModelFacts MetricsFacts.

Section Evaluate.
Context {R : Type} `{Scalar R} {TextParams ImageParams : Type}.
Variable text_model :
  TextParams → list (list Z) → list (list Z) → result (list (list (list R))).
Variable image_model :
  ImageParams → list (tensor R) → result (list (list (list R))).

(** The contract of the pretrained encoders. *)
Hypothesis text_model_spec : ∀ tp ids mask,
  ∃ h, text_model tp ids mask = Ok h ∧ encoder_output (length ids) h.
Hypothesis image_model_spec : ∀ ip px,
  ∃ h, image_model ip px = Ok h ∧ encoder_output (length px) h.

Lemma forward_total (m : MultimodalModel.t R TextParams ImageParams)
    (keep : nat → nat → bool) (input_ids attention_mask : list (list Z))
    (pixel_values : list (tensor R)) :
  architecture m →
  length pixel_values = length input_ids →
  ∃ ss sh sa so sm,
    forward text_model image_model m keep input_ids attention_mask pixel_values
    = Ok [ ("sentiment", ss); ("humor", sh); ("sarcasm", sa);
           ("offensive", so); ("motivational", sm) ] ∧
    scores_shape (length input_ids) 5 ss ∧
    scores_shape (length input_ids) 4 sh ∧
    scores_shape (length input_ids) 4 sa ∧
    scores_shape (length input_ids) 4 so ∧
    scores_shape (length input_ids) 2 sm.
Proof.
  intros Harch Hn.
  destruct (text_model_spec (text_params m) input_ids attention_mask)
    as (h_text & Htext & Hot).
  destruct (image_model_spec (image_params m) pixel_values)
    as (h_image & Himage & Hoi).
  rewrite Hn in Hoi.
  pose proof Harch as
    (f & p & hs & hh & ha & ho & hm & Hfus & Hcl & Hf & Hs & Hh & Ha & Ho & Hm).
  rewrite (forward_eq_spec text_model image_model m keep _ _ _ h_text h_image _ f p
             Harch Hfus Htext Hot Himage Hoi).
  rewrite Hcl. destruct Hot as [Hnt _], Hoi as [Hni _].
  destruct (forward_spec_shapes f hs hh ha ho hm p (training m) keep
              h_text h_image _ Hs Hh Ha Ho Hm Hnt Hni)
    as (ss & sh & sa & so & sm & -> & Hshapes).
  by exists ss, sh, sa, so, sm.
Qed.

Lemma mapM_argmax_total (o : list (list R)) (n c : nat) :
  scores_shape n (S c) o →
  ∃ p, mapM argmax o = Ok p ∧ length p = n.
Proof.
  intros [Hn Ho].
  exists ((λ row, match row with
                  | [] => 0
                  | v :: row' => argmax_from 1 0 v row'
                  end) <$> o).
  split; [|by rewrite length_fmap].
  apply mapM_Ok_total. eapply Forall_impl; [exact Ho|].
  intros [|v row]; [done|]. done.
Qed.

(** The dictionary comprehension over the five outputs, resolved. *)
Lemma predict_heads_eq (ss sh sa so sm : list (list R)) :
  mapM (λ task,
          o ← dict_get
            [ ("sentiment", ss); ("humor", sh); ("sarcasm", sa);
              ("offensive", so); ("motivational", sm) ] task;
          p ← mapM argmax o;
          mret (task, p))
       (keys [ ("sentiment", ss); ("humor", sh); ("sarcasm", sa);
               ("offensive", so); ("motivational", sm) ])
  = (ps ← mapM argmax ss;
     ph ← mapM argmax sh;
     pa ← mapM argmax sa;
     po ← mapM argmax so;
     pm ← mapM argmax sm;
     mret [ ("sentiment", ps); ("humor", ph); ("sarcasm", pa);
            ("offensive", po); ("motivational", pm) ]).
Proof.
  generalize (mapM (M:=result) (argmax (R:=R))). intros am.
  cbv. destruct (am ss); [|done]. destruct (am sh); [|done].
  destruct (am sa); [|done]. destruct (am so); [|done].
  destruct (am sm); done.
Qed.

Lemma predict_total (m : MultimodalModel.t R TextParams ImageParams) (b : batch) :
  architecture m →
  length (b_pixel_values b) = length (b_input_ids b) →
  ∃ ps ph pa po pm,
    predict text_model image_model m b
    = Ok [ ("sentiment", ps); ("humor", ph); ("sarcasm", pa);
           ("offensive", po); ("motivational", pm) ] ∧
    length ps = length (b_input_ids b) ∧ length ph = length (b_input_ids b) ∧
    length pa = length (b_input_ids b) ∧ length po = length (b_input_ids b) ∧
    length pm = length (b_input_ids b).
Proof.
  intros Harch Hn. unfold predict.
  destruct (forward_total m (λ _ _, true) _ (b_attention_mask b) _ Harch Hn)
    as (ss & sh & sa & so & sm & -> & Hs & Hh & Ha & Ho & Hm).
  cbn [mbind result_bind]. rewrite predict_heads_eq.
  destruct (mapM_argmax_total _ _ _ Hs) as (ps & -> & Hps).
  destruct (mapM_argmax_total _ _ _ Hh) as (ph & -> & Hph).
  destruct (mapM_argmax_total _ _ _ Ha) as (pa & -> & Hpa).
  destruct (mapM_argmax_total _ _ _ Ho) as (po & -> & Hpo).
  destruct (mapM_argmax_total _ _ _ Hm) as (pm & -> & Hpm).
  by exists ps, ph, pa, po, pm.
Qed.

Lemma accumulate_tasks_spec (preds labels : list (string * list nat))
    (ks : list string) :
  NoDup ks →
  ∀ all_preds all_labels,
    (∀ k, k ∈ ks → k ∈ keys all_preds ∧ k ∈ keys all_labels ∧
                   k ∈ keys preds ∧ k ∈ keys labels) →
    ∃ all_preds' all_labels',
      accumulate_tasks preds labels all_preds all_labels ks
        = Ok (all_preds', all_labels') ∧
      keys all_preds' = keys all_preds ∧ keys all_labels' = keys all_labels ∧
      ∀ k,
        get_list all_preds' k = get_list all_preds k ++
          (if decide (k ∈ ks) then get_list preds k else []) ∧
        get_list all_labels' k = get_list all_labels k ++
          (if decide (k ∈ ks) then get_list labels k else []).
Proof.
  induction 1 as [|t ks Ht Hnd IH]; intros P L Hks.
  - exists P, L. split_and!; try done.
    intros k. rewrite decide_False by apply not_elem_of_nil.
    by rewrite !app_nil_r.
  - destruct (Hks t) as (HtP & HtL & Htp & Htl); [apply elem_of_cons; by left|].
    cbn [accumulate_tasks].
    rewrite (dict_get_get_list preds t Htp). cbn [mbind result_bind].
    destruct (dict_extend_spec P t (get_list preds t) HtP) as (P1 & -> & HkP & HgP).
    cbn [mbind result_bind].
    rewrite (dict_get_get_list labels t Htl). cbn [mbind result_bind].
    destruct (dict_extend_spec L t (get_list labels t) HtL) as (L1 & -> & HkL & HgL).
    cbn [mbind result_bind].
    destruct (IH P1 L1) as (P' & L' & -> & HkP' & HkL' & Hg).
    { intros k Hk. rewrite HkP, HkL. apply Hks, elem_of_cons. by right. }
    exists P', L'. split_and!; [done|congruence|congruence|].
    intros k. destruct (Hg k) as [-> ->]. rewrite HgP, HgL, <- !app_assoc.
    destruct (decide (k = t)) as [->|Hne].
    + rewrite !(decide_False (P:=t ∈ ks)) by done.
      rewrite !(decide_True (P:=t ∈ t :: ks)) by (apply elem_of_cons; by left).
      by rewrite !app_nil_r.
    + destruct (decide (k ∈ ks)) as [Hin|Hin].
      * rewrite !(decide_True (P:=k ∈ t :: ks)) by (apply elem_of_cons; by right).
        done.
      * rewrite !(decide_False (P:=k ∈ t :: ks))
          by (intros [?|?]%elem_of_cons; done).
        done.
Qed.

Lemma NoDup_tasks : NoDup tasks.
Proof. compute_done. Qed.

Lemma evaluate_batches_spec (m : MultimodalModel.t R TextParams ImageParams)
    (bs : list batch) :
  architecture m →
  Forall collated bs →
  ∀ all_preds all_labels,
    keys all_preds = tasks → keys all_labels = tasks →
    ∃ all_preds' all_labels',
      evaluate_batches text_model image_model m all_preds all_labels bs
        = Ok (all_preds', all_labels') ∧
      keys all_preds' = tasks ∧ keys all_labels' = tasks ∧
      ∀ k, k ∈ tasks →
        get_list all_preds' k = get_list all_preds k ++
          concat ((λ b, preds_of text_model image_model m b k) <$> bs) ∧
        get_list all_labels' k = get_list all_labels k ++
          concat ((λ b, get_list (b_labels b) k) <$> bs).
Proof.
  intros Harch. induction 1 as [|b bs [Hn Hlab] _ IH]; intros P L HP HL.
  - exists P, L. split_and!; try done. intros k _. by rewrite !app_nil_r.
  - cbn [evaluate_batches].
    destruct (predict_total m b Harch Hn)
      as (ps & ph & pa & po & pm & Hpred & _).
    rewrite Hpred. cbn [mbind result_bind].
    destruct (accumulate_tasks_spec
                [ ("sentiment", ps); ("humor", ph); ("sarcasm", pa);
                  ("offensive", po); ("motivational", pm) ]
                (b_labels b) tasks NoDup_tasks P L)
      as (P1 & L1 & Hacc & HkP & HkL & Hg).
    { intros k Hk. rewrite HP, HL. split_and!; try done.
      destruct (Hlab k Hk) as (y & Hy & _). by eapply dict_get_Ok_elem. }
    change (keys [ ("sentiment", ps); ("humor", ph); ("sarcasm", pa);
                   ("offensive", po); ("motivational", pm) ]) with tasks.
    rewrite Hacc. cbn [mbind result_bind].
    destruct (IH P1 L1) as (P' & L' & -> & HkP' & HkL' & Hg'); [congruence..|].
    exists P', L'. split_and!; try done.
    intros k Hk. destruct (Hg' k Hk) as [-> ->]. destruct (Hg k) as [-> ->].
    rewrite !(decide_True (P:=k ∈ tasks)) by done. rewrite <- !app_assoc.
    rewrite !fmap_cons. cbn [concat].
    assert (Hpk : preds_of text_model image_model m b k
                  = get_list [ ("sentiment", ps); ("humor", ph); ("sarcasm", pa);
                               ("offensive", po); ("motivational", pm) ] k)
      by (unfold preds_of; by rewrite Hpred).
    by rewrite Hpk.
Qed.

Lemma mapM_ext_in {A B} (f g : A → result B) (l : list A) :
  (∀ x, x ∈ l → f x = g x) → mapM f l = mapM g l.
Proof.
  induction l as [|x l IH]; intros Hfg; [done|].
  cbn [mapM]. rewrite (Hfg x) by (apply elem_of_cons; by left).
  rewrite IH; [done|]. intros y Hy. apply Hfg, elem_of_cons. by right.
Qed.

Lemma preds_labels_aligned (m : MultimodalModel.t R TextParams ImageParams)
    (b : batch) (k : string) :
  architecture m → collated b → k ∈ tasks →
  length (get_list (b_labels b) k)
  = length (preds_of text_model image_model m b k).
Proof.
  intros Harch [Hn Hlab] Hk.
  destruct (Hlab k Hk) as (y & Hy & Hlen).
  unfold get_list at 1. rewrite Hy, Hlen.
  destruct (predict_total m b Harch Hn)
    as (ps & ph & pa & po & pm & Hpred & Hps & Hph & Hpa & Hpo & Hpm).
  unfold preds_of. rewrite Hpred. unfold tasks in Hk.
  repeat (apply elem_of_cons in Hk as [->|Hk]);
    [by symmetry..|by apply elem_of_nil in Hk].
Qed.

Lemma unzip_sample_pairs (m : MultimodalModel.t R TextParams ImageParams)
    (bs : list batch) (k : string) :
  architecture m → Forall collated bs → k ∈ tasks →
  concat ((λ b, get_list (b_labels b) k) <$> bs)
    = (sample_pairs text_model image_model m bs k).*1 ∧
  concat ((λ b, preds_of text_model image_model m b k) <$> bs)
    = (sample_pairs text_model image_model m bs k).*2.
Proof.
  intros Harch Hbs Hk. unfold sample_pairs.
  induction Hbs as [|b bs Hb _ [IH1 IH2]]; [done|].
  rewrite !fmap_cons. cbn [concat]. rewrite !fmap_app, <- IH1, <- IH2.
  pose proof (preds_labels_aligned m b k Harch Hb Hk) as Hlen.
  rewrite fst_zip, snd_zip by lia. done.
Qed.

Lemma sample_pairs_Permutation (m : MultimodalModel.t R TextParams ImageParams)
    (bs1 bs2 : list batch) (k : string) :
  Permutation bs1 bs2 →
  Permutation (sample_pairs text_model image_model m bs1 k)
              (sample_pairs text_model image_model m bs2 k).
Proof.
  intros Hp. unfold sample_pairs.
  induction Hp as [|b l1 l2 _ IH|b1 b2 l|l1 l2 l3 _ IH1 _ IH2].
  - done.
  - rewrite !fmap_cons. cbn [concat]. by rewrite IH.
  - rewrite !fmap_cons. cbn [concat]. rewrite !app_assoc.
    by rewrite (Permutation_app_comm (zip _ _) (zip _ _)).
  - by rewrite IH1.
Qed.

Lemma keys_empty :
  keys ((λ task : string, (task, @nil nat)) <$> tasks) = tasks.
Proof. reflexivity. Qed.

(** The metrics of one task from the accumulated pairs. *)
Lemma task_metrics_pairs (all_preds all_labels : list (string * list nat))
    (pairs : list (nat * nat)) (k : string) :
  k ∈ keys all_preds → k ∈ keys all_labels →
  get_list all_labels k = pairs.*1 →
  get_list all_preds k = pairs.*2 →
  task_metrics all_preds all_labels k
  = (acc ← metrics.accuracy_score pairs.*1 pairs.*2;
     f1 ← metrics.f1_score pairs.*1 pairs.*2;
     mret (k, (acc, f1))).
Proof.
  intros HkP HkL HL HP. unfold task_metrics.
  rewrite (dict_get_get_list all_labels k HkL), (dict_get_get_list all_preds k HkP).
  cbn [mbind result_bind]. by rewrite HL, HP.
Qed.

(** [evaluate_model] on collated batches: the metrics of every task are
    those of the pairs the traversal accumulates, and the model comes back
    in evaluation mode. *)
Lemma evaluate_model_spec (dev : torch_device) (ce_value : list (list R) → list nat → R)
    (m : MultimodalModel.t R TextParams ImageParams) (bs : list batch) :
  architecture m → Forall collated bs →
  evaluate_model text_model image_model dev ce_value m bs
  = (ms ← mapM (λ task,
        acc ← metrics.accuracy_score
                (sample_pairs text_model image_model (set_training false m) bs task).*1
                (sample_pairs text_model image_model (set_training false m) bs task).*2;
        f1 ← metrics.f1_score
                (sample_pairs text_model image_model (set_training false m) bs task).*1
                (sample_pairs text_model image_model (set_training false m) bs task).*2;
        mret (task, (acc, f1))) tasks;
     mret (ms, set_training false m)).
Proof.
  intros Harch Hbs. unfold evaluate_model.
  change (keys (criterion dev ce_value)) with tasks.
  destruct (evaluate_batches_spec (set_training false m) bs
              (architecture_set_training false m Harch) Hbs
              ((λ task : string, (task, @nil nat)) <$> tasks)
              ((λ task : string, (task, @nil nat)) <$> tasks)
              keys_empty keys_empty)
    as (P & L & -> & HkP & HkL & Hg).
  cbn [mbind result_bind]. f_equal. apply mapM_ext_in. intros k Hk.
  destruct (Hg k Hk) as [HP HL].
  destruct (unzip_sample_pairs (set_training false m) bs k
              (architecture_set_training false m Harch) Hbs Hk) as [H1 H2].
  apply task_metrics_pairs.
  - by rewrite HkP.
  - by rewrite HkL.
  - rewrite HL, <- H1. unfold tasks in Hk.
    repeat (apply elem_of_cons in Hk as [->|Hk]);
      [done..|by apply elem_of_nil in Hk].
  - rewrite HP, <- H2. unfold tasks in Hk.
    repeat (apply elem_of_cons in Hk as [->|Hk]);
      [done..|by apply elem_of_nil in Hk].
Qed.

Lemma evaluate_model_total (dev : torch_device) (ce_value : list (list R) → list nat → R)
    (m : MultimodalModel.t R TextParams ImageParams) (bs : list batch) :
  architecture m → Forall collated bs →
  is_Ok (evaluate_model text_model image_model dev ce_value m bs).
Proof.
  intros Harch Hbs. rewrite (evaluate_model_spec dev ce_value m bs Harch Hbs).
  unfold metrics.accuracy_score, metrics.f1_score.
  cbn [mapM tasks].
  rewrite !decide_True by (by rewrite !length_fmap).
  cbn [mbind result_bind mret result_ret]. by eexists.
Qed.

(** C6: two traversals of collated batches that accumulate, for every
    task, the same (ground truth, prediction) pairs in any order make
    [evaluate_model] succeed with the same accuracy and macro-F1 per task;
    in particular the metrics do not depend on the order of the batches. *)
Theorem evaluate_model_order_independent
    (dev : torch_device) (ce_value : list (list R) → list nat → R)
    (m : MultimodalModel.t R TextParams ImageParams) (bs1 bs2 : list batch) :
  architecture m →
  Forall collated bs1 →
  Forall collated bs2 →
  (∀ task, task ∈ tasks →
     Permutation
       (sample_pairs text_model image_model (set_training false m) bs1 task)
       (sample_pairs text_model image_model (set_training false m) bs2 task)) →
  is_Ok (evaluate_model text_model image_model dev ce_value m bs1) ∧
  evaluate_model text_model image_model dev ce_value m bs1
    = evaluate_model text_model image_model dev ce_value m bs2 ∧
  (∀ bs3, Permutation bs1 bs3 →
     evaluate_model text_model image_model dev ce_value m bs1
       = evaluate_model text_model image_model dev ce_value m bs3).
Proof.
  intros Harch Hbs1 Hbs2 Hpairs.
  assert (Heq : ∀ bs,
    Forall collated bs →
    (∀ task, task ∈ tasks →
       Permutation
         (sample_pairs text_model image_model (set_training false m) bs1 task)
         (sample_pairs text_model image_model (set_training false m) bs task)) →
    evaluate_model text_model image_model dev ce_value m bs1
      = evaluate_model text_model image_model dev ce_value m bs).
  { intros bs Hbs Hp.
    rewrite (evaluate_model_spec dev ce_value m bs1 Harch Hbs1).
    rewrite (evaluate_model_spec dev ce_value m bs Harch Hbs).
    f_equal. apply mapM_ext_in. intros k Hk.
    destruct (metrics_Permutation _ _ (Hp k Hk)) as [-> ->]. done. }
  split; [by apply evaluate_model_total|].
  split; [by apply Heq|].
  intros bs3 Hperm. apply Heq.
  - by rewrite <- Hperm.
  - intros task _. by apply sample_pairs_Permutation.
Qed.




End Evaluate.

Import Samples.

Lemma sample_text_model_spec (tp : unit) (ids mask : list (list Z)) :
  ∃ h, sample_text_model tp ids mask = Ok h ∧ encoder_output (length ids) h.
Proof.
  eexists. split; [reflexivity|]. split; [by rewrite length_fmap|].
  apply Forall_fmap, Forall_true. intros ?. simpl. split; [done|].
  repeat constructor.
Qed.

Lemma sample_image_model_spec (ip : unit) (px : list (tensor Q)) :
  ∃ h, sample_image_model ip px = Ok h ∧ encoder_output (length px) h.
Proof.
  eexists. split; [reflexivity|]. split; [by rewrite length_fmap|].
  apply Forall_fmap, Forall_true. intros ?. simpl. split; [done|].
  repeat constructor.
Qed.

Lemma sample_batch_collated : collated sample_batch.
Proof.
  split; [reflexivity|]. intros task Hk. unfold tasks in Hk.
  repeat (apply elem_of_cons in Hk as [->|Hk]);
    [by eexists..|by apply elem_of_nil in Hk].
Qed.

Lemma other_batch_collated : collated other_batch.
Proof.
  split; [reflexivity|]. intros task Hk. unfold tasks in Hk.
  repeat (apply elem_of_cons in Hk as [->|Hk]);
    [by eexists..|by apply elem_of_nil in Hk].
Qed.

Lemma evaluate_model_order_independent_witness :
  is_Ok (evaluate_model sample_text_model sample_image_model cpu sample_ce_value
           sample_model [sample_batch; other_batch]) ∧
  evaluate_model sample_text_model sample_image_model cpu sample_ce_value
    sample_model [sample_batch; other_batch]
  = evaluate_model sample_text_model sample_image_model cpu sample_ce_value
      sample_model [other_batch; sample_batch] ∧
  (∀ bs3, Permutation [sample_batch; other_batch] bs3 →
     evaluate_model sample_text_model sample_image_model cpu sample_ce_value
       sample_model [sample_batch; other_batch]
     = evaluate_model sample_text_model sample_image_model cpu sample_ce_value
         sample_model bs3).
Proof.
  apply (evaluate_model_order_independent sample_text_model sample_image_model
           sample_text_model_spec sample_image_model_spec cpu sample_ce_value
           sample_model [sample_batch; other_batch] [other_batch; sample_batch]).
  - apply architecture_init.
  - repeat constructor; [apply sample_batch_collated|apply other_batch_collated].
  - repeat constructor; [apply other_batch_collated|apply sample_batch_collated].
  - intros task _. apply sample_pairs_Permutation. apply perm_swap.
Defined.


End EvaluateFacts.

(** ** The training loop *)

Module TrainFacts.
Import nn MultimodalModel ModelFacts EvaluateFacts.

Section Train.
Context {R : Type} `{Scalar R} {TextParams ImageParams : Type}.
Context {Grad OptState : Type}.
Variable text_model :
  TextParams → list (list Z) → list (list Z) → result (list (list (list R))).
Variable image_model :
  ImageParams → list (tensor R) → result (list (list (list R))).
Variable dev : torch_device.
Variable ce_value : list (list R) → list nat → R.
Variable autograd :
  MultimodalModel.t R TextParams ImageParams → (nat → nat → bool) →
  batch (R:=R) → Grad.
Variable accumulate : option Grad → Grad → Grad.
Variable optimizer_step :
  OptState → MultimodalModel.t R TextParams ImageParams → option Grad →
  OptState * MultimodalModel.t R TextParams ImageParams.
Variable dropout_draw : nat → nat → nat → bool.
Variable average : R → nat → R.

(** The contract of the pretrained encoders, and of the optimizer: an
    update changes the entries of the parameters, not their shapes. *)
Hypothesis text_model_spec : ∀ tp ids mask,
  ∃ h, text_model tp ids mask = Ok h ∧ encoder_output (length ids) h.
Hypothesis image_model_spec : ∀ ip px,
  ∃ h, image_model ip px = Ok h ∧ encoder_output (length px) h.
Hypothesis optimizer_step_architecture : ∀ o m g,
  architecture m → architecture (optimizer_step o m g).2.

Lemma CrossEntropyLoss_Ok (input : list (list R)) (target : list nat) (n c : nat) :
  scores_shape n c input →
  length target = n →
  Forall (λ k, k < c) target →
  CrossEntropyLoss dev ce_value input target = Ok (ce_value input target).
Proof.
  intros [Hn Hin] Hlen Htarget. unfold CrossEntropyLoss.
  rewrite decide_True by congruence.
  rewrite bool_decide_eq_true_2; [done|].
  apply Forall2_same_length_lookup_2; [congruence|].
  intros i row k Hrow Hk.
  rewrite (Forall_lookup_1 _ _ _ _ Hin Hrow).
  exact (Forall_lookup_1 _ _ _ _ Htarget Hk).
Qed.

(** The sum over the five outputs, with the dictionary lookups resolved. *)
Lemma sum_losses_heads_eq (ss sh sa so sm : list (list R))
    (labels : list (string * list nat)) (acc : R) :
  sum_losses (criterion dev ce_value)
    [ ("sentiment", ss); ("humor", sh); ("sarcasm", sa);
      ("offensive", so); ("motivational", sm) ] labels acc
    (keys [ ("sentiment", ss); ("humor", sh); ("sarcasm", sa);
            ("offensive", so); ("motivational", sm) ])
  = (ys ← dict_get labels "sentiment";
     ls ← CrossEntropyLoss dev ce_value ss ys;
     yh ← dict_get labels "humor";
     lh ← CrossEntropyLoss dev ce_value sh yh;
     ya ← dict_get labels "sarcasm";
     la ← CrossEntropyLoss dev ce_value sa ya;
     yo ← dict_get labels "offensive";
     lo ← CrossEntropyLoss dev ce_value so yo;
     ym ← dict_get labels "motivational";
     lm ← CrossEntropyLoss dev ce_value sm ym;
     Ok (s_add (s_add (s_add (s_add (s_add acc ls) lh) la) lo) lm)).
Proof.
  unfold criterion. cbn [keys fmap list_fmap fst sum_losses].
  generalize (CrossEntropyLoss dev ce_value). intros ce.
  generalize (dict_get labels). intros lab.
  generalize (s_add (Scalar:=H)). intros add.
  cbv.
  destruct (lab "sentiment") as [ys|]; [|done]. destruct (ce ss ys); [|done].
  destruct (lab "humor") as [yh|]; [|done]. destruct (ce sh yh); [|done].
  destruct (lab "sarcasm") as [ya|]; [|done]. destruct (ce sa ya); [|done].
  destruct (lab "offensive") as [yo|]; [|done]. destruct (ce so yo); [|done].
  destruct (lab "motivational") as [ym|]; [|done]. destruct (ce sm ym); done.
Qed.

Lemma trainable_labels (b : batch (R:=R)) (task : string) (c : nat) :
  trainable b → (task, c) ∈ num_classes →
  ∃ y, dict_get (b_labels b) task = Ok y ∧
       length y = length (b_input_ids b) ∧ Forall (λ k, k < c) y.
Proof.
  intros [[_ Hlab] Hrange] Hin.
  assert (Htask : task ∈ tasks).
  { unfold num_classes in Hin.
    repeat (apply elem_of_cons in Hin as [[= -> ->]|Hin]);
      [compute_done..|by apply elem_of_nil in Hin]. }
  destruct (Hlab task Htask) as (y & Hy & Hlen).
  exists y. split_and!; [done|done|]. by eapply Hrange.
Qed.

(** The steps of the specification, with the section's functions. *)
Local Abbreviation step_spec :=
  (training_step text_model image_model ce_value autograd accumulate
     optimizer_step dropout_draw).
Local Abbreviation run_spec :=
  (training_run text_model image_model ce_value autograd accumulate
     optimizer_step dropout_draw).

(** One pass through the body of the inner loop. *)
Lemma train_batch_spec
    (st : state (R:=R) (TextParams:=TextParams) (ImageParams:=ImageParams)
                (Grad:=Grad) (OptState:=OptState))
    (b : batch) :
  architecture (st_model st) →
  trainable b →
  ∃ st' loss step,
    train_batch text_model image_model autograd accumulate optimizer_step
      dropout_draw (criterion dev ce_value) st b = Ok (st', loss, step) ∧
    step_spec st b st' step ∧
    architecture (st_model st').
Proof.
  intros Harch Hb. pose proof Hb as [[Hn _] _]. unfold train_batch.
  destruct (forward_total text_model image_model text_model_spec image_model_spec
              (st_model st) (dropout_draw (st_draws st)) (b_input_ids b)
              (b_attention_mask b) (b_pixel_values b) Harch Hn)
    as (ss & sh & sa & so & sm & Hfw & Hs & Hh & Ha & Ho & Hm).
  rewrite Hfw. cbn [mbind result_bind]. rewrite sum_losses_heads_eq.
  destruct (trainable_labels b "sentiment" 5 Hb) as (ys & Hys & Hls & Hrs);
    [compute_done|].
  destruct (trainable_labels b "humor" 4 Hb) as (yh & Hyh & Hlh & Hrh);
    [compute_done|].
  destruct (trainable_labels b "sarcasm" 4 Hb) as (ya & Hya & Hla & Hra);
    [compute_done|].
  destruct (trainable_labels b "offensive" 4 Hb) as (yo & Hyo & Hlo & Hro);
    [compute_done|].
  destruct (trainable_labels b "motivational" 2 Hb) as (ym & Hym & Hlm & Hrm);
    [compute_done|].
  rewrite Hys, Hyh, Hya, Hyo, Hym. cbn [mbind result_bind].
  rewrite (CrossEntropyLoss_Ok ss ys _ _ Hs Hls Hrs). cbn [mbind result_bind].
  rewrite (CrossEntropyLoss_Ok sh yh _ _ Hh Hlh Hrh). cbn [mbind result_bind].
  rewrite (CrossEntropyLoss_Ok sa ya _ _ Ha Hla Hra). cbn [mbind result_bind].
  rewrite (CrossEntropyLoss_Ok so yo _ _ Ho Hlo Hro). cbn [mbind result_bind].
  rewrite (CrossEntropyLoss_Ok sm ym _ _ Hm Hlm Hrm). cbn [mbind result_bind].
  pose proof (optimizer_step_architecture (st_opt st) (st_model st)
    (Some (accumulate None
       (autograd (st_model st) (dropout_draw (st_draws st)) b))) Harch) as Hopt.
  destruct (optimizer_step _ _ _) as [o' m'] eqn:Hstep.
  eexists _, _, _. split; [reflexivity|]. split; [|exact Hopt].
  by eapply training_step_intro.
Qed.

Lemma train_batches_spec (bs : list batch) :
  Forall trainable bs →
  ∀ (st : state (R:=R) (TextParams:=TextParams) (ImageParams:=ImageParams)
                (Grad:=Grad) (OptState:=OptState)) (total_loss : R),
    architecture (st_model st) →
    ∃ st' total tr,
      train_batches text_model image_model autograd accumulate optimizer_step
        dropout_draw (criterion dev ce_value) st total_loss bs = Ok (st', total, tr) ∧
      run_spec st bs st' tr ∧
      architecture (st_model st').
Proof.
  induction 1 as [|b bs Hb _ IH]; intros st total_loss Harch.
  - exists st, total_loss, []. split_and!; [done|constructor|done].
  - cbn [train_batches].
    destruct (train_batch_spec st b Harch Hb) as (st1 & loss & step & -> & Hstep & Harch1).
    cbn [mbind result_bind].
    destruct (IH st1 (s_add total_loss loss) Harch1)
      as (st2 & total & tr & -> & Hrun & Harch2).
    cbn [mbind result_bind].
    exists st2, total, (step ++ tr). split_and!; [done| |done].
    by econstructor.
Qed.

Lemma training_run_app (bs1 bs2 : list (batch (R:=R))) (tr1 tr2 : list event)
    (st st1 st2 : state (R:=R) (TextParams:=TextParams) (ImageParams:=ImageParams)
                        (Grad:=Grad) (OptState:=OptState)) :
  run_spec st bs1 st1 tr1 →
  run_spec st1 bs2 st2 tr2 →
  run_spec st (bs1 ++ bs2) st2 (tr1 ++ tr2).
Proof.
  induction 1 as [|st0 st0' st0'' b bs step tr Hstep _ IH]; intros H2; [exact H2|].
  rewrite <- app_assoc. cbn [app]. econstructor; eauto.
Qed.

(** The specification's step leaves no choice: the state and the events
    of a run are fixed by the state it starts from and the batches. *)
Lemma training_step_functional (b : batch (R:=R)) (step1 step2 : list event)
    (st st1 st2 : state (R:=R) (TextParams:=TextParams) (ImageParams:=ImageParams)
                        (Grad:=Grad) (OptState:=OptState)) :
  step_spec st b st1 step1 → step_spec st b st2 step2 →
  st1 = st2 ∧ step1 = step2.
Proof.
  intros H1 H2.
  destruct H1 as [st b ss sh sa so sm ys yh ya yo ym g o' m'
                  Hfw Hys Hyh Hya Hyo Hym Hg Hopt].
  inversion H2 as [? ? ss' sh' sa' so' sm' ys' yh' ya' yo' ym' g' o'' m''
                   Hfw' Hys' Hyh' Hya' Hyo' Hym' Hg' Hopt']; subst.
  rewrite Hfw in Hfw'. rewrite Hys in Hys'. rewrite Hyh in Hyh'.
  rewrite Hya in Hya'. rewrite Hyo in Hyo'. rewrite Hym in Hym'.
  rewrite Hopt in Hopt'. by simplify_eq.
Qed.

Lemma training_run_functional (bs : list (batch (R:=R))) (tr1 tr2 : list event)
    (st st1 st2 : state (R:=R) (TextParams:=TextParams) (ImageParams:=ImageParams)
                        (Grad:=Grad) (OptState:=OptState)) :
  run_spec st bs st1 tr1 → run_spec st bs st2 tr2 →
  st1 = st2 ∧ tr1 = tr2.
Proof.
  intros H1. revert st2 tr2.
  induction H1 as [|st0 sta stb b bs step tr Hstep _ IH]; intros st2 tr2 H2.
  - by inversion H2.
  - inversion H2 as [|? sta' ? ? ? step' tr' Hstep' Hrun']; subst.
    destruct (training_step_functional _ _ _ _ _ _ Hstep Hstep') as [<- <-].
    by destruct (IH _ _ Hrun') as [<- <-].
Qed.

(** Every step draws dropout once and leaves four events. *)
Lemma training_run_counts (bs : list (batch (R:=R))) (tr : list event)
    (st st' : state (R:=R) (TextParams:=TextParams) (ImageParams:=ImageParams)
                    (Grad:=Grad) (OptState:=OptState)) :
  run_spec st bs st' tr →
  st_draws st' = st_draws st + length bs ∧ length tr = 4 * length bs.
Proof.
  induction 1 as [|st0 sta stb b bs step tr Hstep _ [IHd IHl]]; [cbn; lia|].
  rewrite List.length_app, IHd, IHl. destruct Hstep. cbn [length st_draws]. lia.
Qed.

Lemma train_epochs_spec (dl : DataLoader) (n : nat) :
  0 < dl_len dl →
  (∀ e, Forall trainable (dl_pass dl e)) →
  ∀ (epoch : nat)
    (st : state (R:=R) (TextParams:=TextParams) (ImageParams:=ImageParams)
                (Grad:=Grad) (OptState:=OptState)),
    architecture (st_model st) →
    ∃ st' tr prints,
      train_epochs text_model image_model autograd accumulate optimizer_step
        dropout_draw average (criterion dev ce_value) dl epoch n st
        = Ok (st', tr, prints) ∧
      run_spec st (concat (dl_pass dl <$> seq epoch n)) st' tr ∧
      length prints = n ∧
      architecture (st_model st').
Proof.
  intros Hlen Hdl. induction n as [|n IH]; intros epoch st Harch.
  - exists st, [], []. split_and!; [done|constructor|done|done].
  - cbn [train_epochs].
    destruct (train_batches_spec (dl_pass dl epoch) (Hdl epoch) st s_zero Harch)
      as (st1 & total & tr1 & -> & Hrun1 & Harch1).
    cbn [mbind result_bind]. rewrite decide_False by lia.
    cbn [mbind result_bind].
    destruct (IH (S epoch) st1 Harch1) as (st2 & tr2 & prints & -> & Hrun2 & Hp & Harch2).
    cbn [mbind result_bind].
    eexists _, _, _. split; [reflexivity|]. split_and!; [|by rewrite <- Hp|done].
    cbn [seq fmap list_fmap concat]. by eapply training_run_app.
Qed.

Lemma length_passes (dl : DataLoader (R:=R)) (n epoch : nat) :
  (∀ e, length (dl_pass dl e) = dl_len dl) →
  length (concat (dl_pass dl <$> seq epoch n)) = n * dl_len dl.
Proof.
  intros Hlen. revert epoch. induction n as [|n IH]; intros epoch; [done|].
  cbn [seq fmap list_fmap concat]. rewrite List.length_app, Hlen, IH. lia.
Qed.

(** C5: on a loader that yields [len(dataloader)] well-formed batches on
    every pass, [train_model] returns, and the state and the events it
    returns are those of mini-batch gradient descent from the model in
    training mode over the batches of pass 0, pass 1, ... up to the fixed
    number of epochs, in order. Every step runs the forward pass of the
    parameters the step before it left, backpropagates the sum over the
    five tasks of the cross-entropy between the scores of the head and
    the labels of the task, and hands the gradient of this batch alone
    to the optimizer, whose result is the next state. No other run of
    such steps exists from that state; there are
    [epochs * len(dataloader)] steps and one printed average per
    epoch. *)
Theorem train_model_steps
    (st : state (R:=R) (TextParams:=TextParams) (ImageParams:=ImageParams)
                (Grad:=Grad) (OptState:=OptState))
    (dl : DataLoader) (epochs : nat) :
  architecture (st_model st) →
  0 < dl_len dl →
  (∀ e, length (dl_pass dl e) = dl_len dl) →
  (∀ e, Forall trainable (dl_pass dl e)) →
  let st0 := MkState (set_training true (st_model st)) (st_grad st)
               (st_opt st) (st_draws st) in
  let passes := concat (dl_pass dl <$> seq 0 epochs) in
  ∃ st' tr prints,
    train_model text_model image_model autograd accumulate optimizer_step
      dropout_draw average st dl (criterion dev ce_value) epochs
      = Ok (st', tr, prints) ∧
    training_run text_model image_model ce_value autograd accumulate
      optimizer_step dropout_draw st0 passes st' tr ∧
    (∀ st'' tr'',
       training_run text_model image_model ce_value autograd accumulate
         optimizer_step dropout_draw st0 passes st'' tr'' →
       st'' = st' ∧ tr'' = tr) ∧
    length passes = epochs * dl_len dl ∧
    length tr = 4 * (epochs * dl_len dl) ∧
    st_draws st' = st_draws st + epochs * dl_len dl ∧
    length prints = epochs.
Proof.
  intros Harch Hpos Hlen Hdl st0 passes. unfold train_model. fold st0.
  destruct (train_epochs_spec dl epochs Hpos Hdl 0 st0)
    as (st' & tr & prints & Htrain & Hrun & Hprints & _).
  { by apply architecture_set_training. }
  fold passes in Hrun.
  exists st', tr, prints. split; [exact Htrain|]. split; [exact Hrun|].
  split.
  { intros st'' tr'' Hrun'.
    by destruct (training_run_functional _ _ _ _ _ _ Hrun Hrun') as [<- <-]. }
  pose proof (length_passes dl epochs 0 Hlen) as Hcount. fold passes in Hcount.
  destruct (training_run_counts _ _ _ _ Hrun) as [Hdraws Hevents].
  rewrite Hcount in Hdraws, Hevents.
  split_and!; [exact Hcount|exact Hevents|exact Hdraws|exact Hprints].
Qed.

End Train.

Import Samples.

Lemma sample_batch_trainable : trainable sample_batch.
Proof.
  split; [apply sample_batch_collated|].
  intros task c y Hin Hy. unfold num_classes in Hin.
  repeat (apply elem_of_cons in Hin as [[= -> ->]|Hin]);
    [..|by apply elem_of_nil in Hin];
    injection Hy as <-; repeat constructor.
Qed.

Lemma other_batch_trainable : trainable other_batch.
Proof.
  split; [apply other_batch_collated|].
  intros task c y Hin Hy. unfold num_classes in Hin.
  repeat (apply elem_of_cons in Hin as [[= -> ->]|Hin]);
    [..|by apply elem_of_nil in Hin];
    injection Hy as <-; repeat constructor.
Qed.

Lemma train_model_steps_witness :
  let st0 := MkState (set_training true (st_model sample_state))
               (st_grad sample_state) (st_opt sample_state)
               (st_draws sample_state) in
  let passes := concat (dl_pass sample_loader <$> seq 0 default_epochs) in
  ∃ st' tr prints,
    train_model sample_text_model sample_image_model sample_autograd
      sample_accumulate sample_optimizer_step sample_dropout_draw sample_average
      sample_state sample_loader (criterion cpu sample_ce_value) default_epochs
      = Ok (st', tr, prints) ∧
    training_run sample_text_model sample_image_model sample_ce_value
      sample_autograd sample_accumulate sample_optimizer_step
      sample_dropout_draw st0 passes st' tr ∧
    (∀ st'' tr'',
       training_run sample_text_model sample_image_model sample_ce_value
         sample_autograd sample_accumulate sample_optimizer_step
         sample_dropout_draw st0 passes st'' tr'' →
       st'' = st' ∧ tr'' = tr) ∧
    length passes = default_epochs * dl_len sample_loader ∧
    length tr = 4 * (default_epochs * dl_len sample_loader) ∧
    st_draws st' = st_draws sample_state + default_epochs * dl_len sample_loader ∧
    length prints = default_epochs.
Proof.
  apply (train_model_steps sample_text_model sample_image_model cpu
           sample_ce_value sample_autograd sample_accumulate
           sample_optimizer_step sample_dropout_draw sample_average
           sample_text_model_spec sample_image_model_spec).
  - intros o m g Hm. exact Hm.
  - apply architecture_init.
  - cbn. lia.
  - intros e. cbn. by destruct (Nat.even e).
  - intros e. cbn. destruct (Nat.even e); repeat constructor;
      (apply sample_batch_trainable || apply other_batch_trainable).
Defined.

End TrainFacts.

(** ** The definitions at work on the sample data *)

Module Examples.
Import MemeDataset metrics model_selection Samples.

Example getitem_first_row :
  getitem sample_wordpiece sample_load_image sample_dataset 0 = Ok sample_item.
Proof. reflexivity. Qed.

Example getitem_padded_ids :
  data (input_ids sample_item)
  = [101; 2298; 2045; 2026; 2767; 102]%Z ++ replicate 122 0%Z.
Proof. reflexivity. Qed.

Example getitem_unknown_humour :
  getitem sample_wordpiece sample_load_image sample_dataset 1 = Err ValueError.
Proof. reflexivity. Qed.

Example getitem_unknown_motivational :
  labels <$> getitem sample_wordpiece sample_load_image sample_dataset 2
  = Ok [ ("sentiment", 3); ("humor", 2); ("sarcasm", 0); ("offensive", 0);
         ("motivational", 0) ].
Proof. reflexivity. Qed.

Example getitem_past_the_end :
  getitem sample_wordpiece sample_load_image sample_dataset 3 = Err IndexError.
Proof. reflexivity. Qed.

Example getitem_truncated_ids :
  input_ids <$>
    getitem sample_wordpiece sample_load_image
      (init [sample_row] "images" (Some 3)) 0
  = Ok (Tensor [3] [101; 2298; 102]%Z).
Proof. reflexivity. Qed.

Example getitem_two_ids :
  input_ids <$>
    getitem sample_wordpiece sample_load_image
      (init [sample_row] "images" (Some 2)) 0
  = Ok (Tensor [6] [101; 2298; 2045; 2026; 2767; 102]%Z).
Proof. reflexivity. Qed.

Example getitem_narrow_ids :
  input_ids <$> getitem sample_wordpiece sample_load_image narrow_dataset 0
  = Ok (Tensor [6] [101; 2298; 2045; 2026; 2767; 102]%Z).
Proof. reflexivity. Qed.

Example accuracy_three_of_four :
  accuracy_score [0; 1; 1; 2] [0; 1; 0; 2] = Ok (Val (3 # 4)).
Proof. reflexivity. Qed.

Example accuracy_length_mismatch :
  accuracy_score [0; 1] [0] = Err ValueError.
Proof. reflexivity. Qed.

Example unique_labels_sorted : unique_labels [0; 3; 3] [1; 0; 0] = [0; 1; 3].
Proof. reflexivity. Qed.

(** Classes 0 and 1 score 2/3 each, class 2 scores 1: the mean is 7/9. *)
Example macro_f1_seven_ninths :
  ∃ q, f1_score [0; 1; 1; 2] [0; 1; 0; 2] = Ok (Val q) ∧ (q == 7 # 9)%Q.
Proof. eexists. split; [reflexivity|]. reflexivity. Qed.

Example split_five_rows :
  (λ parts, (parts.1.*1, parts.2.*1)) <$>
    split_table (λ _, tt) sample_permutation tt (read_csv sample_rows)
  = Ok ([3; 2; 1; 0], [4]).
Proof. reflexivity. Qed.

Example split_single_row :
  split_table (λ _, tt) sample_permutation tt (read_csv [sample_row])
  = Err ValueError.
Proof. reflexivity. Qed.

Example evaluate_sample_batches :
  ∃ ms m',
    evaluate_model sample_text_model sample_image_model cpu sample_ce_value
      sample_model [sample_batch; other_batch] = Ok (ms, m') ∧
    fst <$> dict_get ms "offensive" = Ok (Val (2 # 3)) ∧
    fst <$> dict_get ms "sentiment" = Ok (Val (0 # 3)).
Proof.
  eexists _, _. split; [vm_compute; reflexivity|].
  split; vm_compute; reflexivity.
Qed.

Example train_two_epochs :
  (λ r, (length r.1.2, length r.2)) <$>
    train_model sample_text_model sample_image_model sample_autograd
      sample_accumulate sample_optimizer_step sample_dropout_draw sample_average
      sample_state sample_loader (criterion cpu sample_ce_value) default_epochs
  = Ok (16, 2).
Proof. vm_compute. reflexivity. Qed.

Example collate_two_items :
  b_labels <$> default_collate [sample_item; sample_item]
  = Ok [ ("sentiment", [4; 4]); ("humor", [3; 3]); ("sarcasm", [1; 1]);
         ("offensive", [0; 0]); ("motivational", [0; 0]) ].
Proof. reflexivity. Qed.

End Examples.

(** * Further properties of the code *)

(** ** MemeDataset: bounds, failures, tensors, partitions *)

Module DatasetCoverage.
Import MemeDataset MemeDatasetFacts Samples MoreSamples.

Lemma read_csv_lookup (rows : list row) (i : nat) :
  read_csv rows !! i = (λ r, (i, r)) <$> rows !! i.
Proof. unfold read_csv. by rewrite list_lookup_imap. Qed.

Lemma read_csv_elem (rows : list row) (i : nat) (r : row) :
  (i, r) ∈ read_csv rows → read_csv rows !! i = Some (i, r).
Proof.
  intros (j & Hj)%list_elem_of_lookup. rewrite read_csv_lookup in Hj.
  destruct (rows !! j) as [r'|] eqn:Hr; [|done].
  injection Hj as <- <-. by rewrite read_csv_lookup, Hr.
Qed.

Lemma squeeze_no_unit {A} (t : tensor A) : 1 ∉ shape (squeeze t).
Proof.
  unfold squeeze. cbn [shape]. intros Hin.
  apply list_elem_of_filter in Hin as [Hne _]. done.
Qed.

Lemma squeeze_numel {A} (t : tensor A) :
  numel (shape (squeeze t)) = numel (shape t).
Proof.
  unfold squeeze, numel. cbn [shape].
  induction (shape t) as [|d sh IH]; [done|].
  destruct (decide (d = 1)) as [->|Hd].
  - rewrite filter_cons_False by (intros ?; done). cbn [foldr]. lia.
  - rewrite filter_cons_True by done. cbn [foldr]. by rewrite IH.
Qed.

Section GetItemCoverage.
Context {pixel : Type}.
Variable wordpiece : string → list Z.
Variable load_image : string → string → result (tensor pixel).

(** X1: an index at or past [len(dataset)] is refused with [IndexError],
    whatever the tokenizer and the image files. *)
Theorem getitem_out_of_bounds (ds : t) (idx : nat) :
  len ds ≤ idx →
  getitem wordpiece load_image ds idx = Err IndexError.
Proof.
  intros Hlen. unfold getitem, iloc, len in *.
  by rewrite (lookup_ge_None_2 _ _ Hlen).
Qed.

(** X2: [__getitem__] returns an item exactly when the row exists, its
    image loads and its sentiment, humour, sarcasm and offensive labels
    are in their vocabularies; the motivational label plays no part. *)
Theorem getitem_returns_iff (ds : t) (idx : nat) :
  is_Ok (getitem wordpiece load_image ds idx) ↔
  ∃ r, iloc (labels_df ds) idx = Ok r ∧
       is_Ok (load_image (image_dir ds) (image_name r)) ∧
       overall_sentiment r ∈
         ["very_negative"; "negative"; "neutral"; "positive"; "very_positive"] ∧
       humour r ∈ ["not_funny"; "funny"; "very_funny"; "hilarious"] ∧
       sarcasm r ∈ ["not_sarcastic"; "general"; "twisted_meaning"; "very_twisted"] ∧
       offensive r ∈
         ["not_offensive"; "slight"; "very_offensive"; "hateful_offensive"].
Proof.
  split.
  - intros [it Hit]. apply getitem_Ok_inv in Hit
      as (r & px & ks & kh & ka & ko & Hr & Hpx & Hs & Hh & Ha & Ho & _).
    exists r. split; [done|]. split; [by exists px|].
    apply index_Ok_lookup in Hs, Hh, Ha, Ho.
    split_and!; by eapply list_elem_of_lookup_2.
  - intros (r & Hr & [px Hpx] & Hs & Hh & Ha & Ho).
    rewrite getitem_eq, Hr. cbn [mbind result_bind].
    rewrite Hpx. cbn [mbind result_bind].
    destruct (index_elem _ _ Hs) as [ks ->]. cbn [mbind result_bind].
    destruct (index_elem _ _ Hh) as [kh ->]. cbn [mbind result_bind].
    destruct (index_elem _ _ Ha) as [ka ->]. cbn [mbind result_bind].
    destruct (index_elem _ _ Ho) as [ko ->]. by eexists.
Qed.

(** X3: [__getitem__] fails in three ways only: the index is out of
    bounds ([IndexError]), the image of the row does not load (the error
    of the image pipeline, raised before any label is looked at), or the
    image loads and one of the four looked-up labels is unknown
    ([ValueError]). *)
Theorem getitem_failures (ds : t) (idx : nat) (e : exn) :
  getitem wordpiece load_image ds idx = Err e →
  (len ds ≤ idx ∧ e = IndexError) ∨
  (∃ r, iloc (labels_df ds) idx = Ok r ∧
        load_image (image_dir ds) (image_name r) = Err e) ∨
  (∃ r, iloc (labels_df ds) idx = Ok r ∧
        is_Ok (load_image (image_dir ds) (image_name r)) ∧
        e = ValueError ∧
        (overall_sentiment r ∉
           ["very_negative"; "negative"; "neutral"; "positive"; "very_positive"] ∨
         humour r ∉ ["not_funny"; "funny"; "very_funny"; "hilarious"] ∨
         sarcasm r ∉
           ["not_sarcastic"; "general"; "twisted_meaning"; "very_twisted"] ∨
         offensive r ∉
           ["not_offensive"; "slight"; "very_offensive"; "hateful_offensive"])).
Proof.
  rewrite getitem_eq. unfold iloc, len.
  destruct (labels_df ds !! idx) as [[i r]|] eqn:Hrow; cbn [mbind result_bind].
  2:{ intros [= <-]. left. split; [|done]. by apply lookup_ge_None. }
  destruct (load_image (image_dir ds) (image_name r)) as [px|e'] eqn:Hpx;
    cbn [mbind result_bind].
  2:{ intros [= <-]. right. left. by exists r. }
  intros He. right. right. exists r. split; [done|]. split; [by exists px|].
  destruct (decide (overall_sentiment r ∈
    ["very_negative"; "negative"; "neutral"; "positive"; "very_positive"]))
    as [Hs|Hs].
  2:{ rewrite (index_not_elem _ _ Hs) in He. injection He as <-. auto. }
  destruct (index_elem _ _ Hs) as [ks Hks]. rewrite Hks in He.
  cbn [mbind result_bind] in He.
  destruct (decide (humour r ∈ ["not_funny"; "funny"; "very_funny"; "hilarious"]))
    as [Hh|Hh].
  2:{ rewrite (index_not_elem _ _ Hh) in He. injection He as <-. auto. }
  destruct (index_elem _ _ Hh) as [kh Hkh]. rewrite Hkh in He.
  cbn [mbind result_bind] in He.
  destruct (decide (sarcasm r ∈
    ["not_sarcastic"; "general"; "twisted_meaning"; "very_twisted"])) as [Ha|Ha].
  2:{ rewrite (index_not_elem _ _ Ha) in He. injection He as <-. auto. }
  destruct (index_elem _ _ Ha) as [ka Hka]. rewrite Hka in He.
  cbn [mbind result_bind] in He.
  destruct (decide (offensive r ∈
    ["not_offensive"; "slight"; "very_offensive"; "hateful_offensive"]))
    as [Ho|Ho].
  2:{ rewrite (index_not_elem _ _ Ho) in He. injection He as <-. auto 6. }
  destruct (index_elem _ _ Ho) as [ko Hko]. rewrite Hko in He. done.
Qed.

(** X4: the tensors of a returned item have no dimension of extent one;
    the pixel values are the entries of the loaded image, as many as
    before, and an image that comes as 1 x 3 x 224 x 224 is stored as
    3 x 224 x 224. *)
Theorem getitem_tensors_squeezed (ds : t) (idx : nat) (r : row)
    (px : tensor pixel) (it : item pixel) :
  iloc (labels_df ds) idx = Ok r →
  load_image (image_dir ds) (image_name r) = Ok px →
  getitem wordpiece load_image ds idx = Ok it →
  (1 ∉ shape (input_ids it)) ∧ (1 ∉ shape (attention_mask it)) ∧
  (1 ∉ shape (pixel_values it)) ∧
  data (pixel_values it) = data px ∧
  numel (shape (pixel_values it)) = numel (shape px) ∧
  (shape px = [1; 3; 224; 224] → shape (pixel_values it) = [3; 224; 224]).
Proof.
  intros Hr Hpx Hit. apply getitem_Ok_inv in Hit
    as (r' & px' & ks & kh & ka & ko & Hr' & Hpx' & _ & _ & _ & _ & ->).
  rewrite Hr in Hr'. injection Hr' as <-.
  rewrite Hpx in Hpx'. injection Hpx' as <-.
  cbn [input_ids attention_mask pixel_values].
  split_and!; try apply squeeze_no_unit; [done|apply squeeze_numel|].
  intros Hsh. unfold squeeze. cbn [shape]. rewrite Hsh.
  rewrite filter_cons_False by (intros ?; done).
  by rewrite !filter_cons_True, filter_nil by done.
Qed.

(** X5: on the four looked-up tasks the encoding is injective: two rows
    (of any datasets) whose items store the same class index for a task
    carry the same label for it. *)
Theorem getitem_encoding_injective (ds1 ds2 : t) (idx1 idx2 : nat)
    (r1 r2 : row) (it1 it2 : item pixel) (task l1 l2 : string) :
  iloc (labels_df ds1) idx1 = Ok r1 →
  iloc (labels_df ds2) idx2 = Ok r2 →
  getitem wordpiece load_image ds1 idx1 = Ok it1 →
  getitem wordpiece load_image ds2 idx2 = Ok it2 →
  task ∈ ["sentiment"; "humor"; "sarcasm"; "offensive"] →
  label_column task r1 = Ok l1 →
  label_column task r2 = Ok l2 →
  dict_get (labels it1) task = dict_get (labels it2) task →
  l1 = l2.
Proof.
  intros Hr1 Hr2 Hit1 Hit2 Htask Hl1 Hl2 Heq.
  apply getitem_Ok_inv in Hit1
    as (r1' & px1 & ks1 & kh1 & ka1 & ko1 & Hr1' & _ & Hs1 & Hh1 & Ha1 & Ho1 & ->).
  apply getitem_Ok_inv in Hit2
    as (r2' & px2 & ks2 & kh2 & ka2 & ko2 & Hr2' & _ & Hs2 & Hh2 & Ha2 & Ho2 & ->).
  rewrite Hr1 in Hr1'. injection Hr1' as <-.
  rewrite Hr2 in Hr2'. injection Hr2' as <-.
  apply index_Ok_lookup in Hs1, Hh1, Ha1, Ho1, Hs2, Hh2, Ha2, Ho2.
  repeat (apply elem_of_cons in Htask as [->|Htask]);
    [| | | |by apply elem_of_nil in Htask];
    injection Hl1 as <-; injection Hl2 as <-; injection Heq as ->; congruence.
Qed.

(** X6: a dataset whose table has been replaced by a partition of the
    table it was read from (the cell after the split) serves at position
    [idx] the item the full dataset serves at the index label found there:
    rows are reached by position, so shuffled labels do not matter. *)
Theorem getitem_over_partition (rows : list row) (dir : string)
    (max_len : option nat) (part : DataFrame) (idx i : nat) (r : row) :
  (∀ x, x ∈ part → x ∈ read_csv rows) →
  part !! idx = Some (i, r) →
  getitem wordpiece load_image (with_labels_df (init rows dir max_len) part) idx
  = getitem wordpiece load_image (init rows dir max_len) i.
Proof.
  intros Hsub Hidx.
  assert (Hfull : read_csv rows !! i = Some (i, r)).
  { apply read_csv_elem, Hsub. by eapply list_elem_of_lookup_2. }
  unfold getitem, iloc, with_labels_df, init. cbn [labels_df image_dir text_max_length].
  by rewrite Hidx, Hfull.
Qed.

End GetItemCoverage.

Lemma getitem_out_of_bounds_witness :
  getitem sample_wordpiece sample_load_image sample_dataset 7 = Err IndexError.
Proof.
  apply (getitem_out_of_bounds sample_wordpiece sample_load_image sample_dataset 7).
  vm_compute. lia.
Defined.

Lemma getitem_failures_witness :
  (len sample_dataset ≤ 1 ∧ OSError = IndexError) ∨
  (∃ r, iloc (labels_df sample_dataset) 1 = Ok r ∧
        failing_load_image (image_dir sample_dataset) (image_name r) = Err OSError) ∨
  (∃ r, iloc (labels_df sample_dataset) 1 = Ok r ∧
        is_Ok (failing_load_image (image_dir sample_dataset) (image_name r)) ∧
        OSError = ValueError ∧
        (overall_sentiment r ∉
           ["very_negative"; "negative"; "neutral"; "positive"; "very_positive"] ∨
         humour r ∉ ["not_funny"; "funny"; "very_funny"; "hilarious"] ∨
         sarcasm r ∉
           ["not_sarcastic"; "general"; "twisted_meaning"; "very_twisted"] ∨
         offensive r ∉
           ["not_offensive"; "slight"; "very_offensive"; "hateful_offensive"])).
Proof.
  apply (getitem_failures sample_wordpiece failing_load_image sample_dataset 1 OSError).
  reflexivity.
Defined.

Lemma getitem_tensors_squeezed_witness :
  (1 ∉ shape (input_ids sample_item)) ∧
  (1 ∉ shape (attention_mask sample_item)) ∧
  (1 ∉ shape (pixel_values sample_item)) ∧
  data (pixel_values sample_item) = data (Tensor [1; 3; 1; 1] [0; 0; 0]%Q) ∧
  numel (shape (pixel_values sample_item)) = numel [1; 3; 1; 1] ∧
  ([1; 3; 1; 1] = [1; 3; 224; 224] → shape (pixel_values sample_item) = [3; 224; 224]).
Proof.
  apply (getitem_tensors_squeezed sample_wordpiece sample_load_image
           sample_dataset 0 sample_row (Tensor [1; 3; 1; 1] [0; 0; 0]%Q) sample_item).
  - reflexivity.
  - reflexivity.
  - reflexivity.
Defined.

Lemma getitem_encoding_injective_witness : "hilarious" = "hilarious".
Proof.
  apply (getitem_encoding_injective sample_wordpiece sample_load_image
           sample_dataset (init sample_rows "images" None) 0 3
           sample_row sample_row sample_item sample_item "humor").
  - reflexivity.
  - reflexivity.
  - reflexivity.
  - reflexivity.
  - compute_done.
  - reflexivity.
  - reflexivity.
  - reflexivity.
Defined.

Lemma getitem_over_partition_witness :
  getitem sample_wordpiece sample_load_image
    (with_labels_df
       (init [sample_row; odd_humour_row; odd_motivational_row] "images" None)
       sample_partition) 0
  = getitem sample_wordpiece sample_load_image
      (init [sample_row; odd_humour_row; odd_motivational_row] "images" None) 2.
Proof.
  apply (getitem_over_partition sample_wordpiece sample_load_image
           [sample_row; odd_humour_row; odd_motivational_row] "images" None
           sample_partition 0 2 odd_motivational_row).
  - intros x Hx. unfold sample_partition in Hx.
    repeat (apply elem_of_cons in Hx as [->|Hx]);
      [by apply (list_elem_of_lookup_2 _ 2)
      |by apply (list_elem_of_lookup_2 _ 0)
      |by apply elem_of_nil in Hx].
  - reflexivity.
Defined.

End DatasetCoverage.

(** ** MultimodalModel: modes, failures, independence of the heads *)

Module ModelCoverage.
Import nn MultimodalModel ModelFacts Samples MoreSamples.

Lemma dict_get_fmap_values {V W} (g : V → W) (d : list (string * V)) (k : string) :
  dict_get ((λ kv, (kv.1, g kv.2)) <$> d) k = g <$> dict_get d k.
Proof.
  induction d as [|[k0 v] d IH]; [done|].
  rewrite fmap_cons. cbn [dict_get fst snd]. by case_decide.
Qed.

Section ForwardCoverage.
Context {R : Type} `{Scalar R} {TextParams ImageParams : Type}.
Variable text_model :
  TextParams → list (list Z) → list (list Z) → result (list (list (list R))).
Variable image_model :
  ImageParams → list (tensor R) → result (list (list (list R))).

Lemma Sequential_forward_eval (keep1 keep2 : nat → nat → bool)
    (layers : list (layer R)) (x : list (list R)) :
  Sequential_forward false keep1 layers x = Sequential_forward false keep2 layers x.
Proof.
  revert x. induction layers as [|ly layers IH]; intros x; [done|].
  cbn [Sequential_forward].
  assert (Hly : layer_forward false keep1 ly x = layer_forward false keep2 ly x)
    by (by destruct ly).
  rewrite Hly. destruct (layer_forward false keep2 ly x); [|done].
  cbn [mbind result_bind]. apply IH.
Qed.

(** X7: in evaluation mode the forward pass does not look at the random
    draws of dropout: any two draws give the same output, or the same
    error. *)
Theorem forward_eval_ignores_dropout (m : t R TextParams ImageParams)
    (keep1 keep2 : nat → nat → bool) (input_ids attention_mask : list (list Z))
    (pixel_values : list (tensor R)) :
  training m = false →
  forward text_model image_model m keep1 input_ids attention_mask pixel_values
  = forward text_model image_model m keep2 input_ids attention_mask pixel_values.
Proof.
  intros Hm. unfold forward. rewrite Hm.
  destruct (text_model _ _ _) as [h_text|]; [|done]. cbn [mbind result_bind].
  destruct (first_token h_text) as [text_out|]; [|done]. cbn [mbind result_bind].
  destruct (image_model _ _) as [h_image|]; [|done]. cbn [mbind result_bind].
  destruct (first_token h_image) as [image_out|]; [|done]. cbn [mbind result_bind].
  destruct (cat_dim1 text_out image_out) as [fused|]; [|done].
  cbn [mbind result_bind].
  by rewrite (Sequential_forward_eval keep1 keep2).
Qed.

(** X8: when the encoders answer for different numbers of samples (as
    many texts as [n1], as many images as [n2]), the concatenation is
    refused: the forward pass raises [RuntimeError] and returns no
    scores. *)
Theorem forward_batch_mismatch (m : t R TextParams ImageParams)
    (keep : nat → nat → bool) (input_ids attention_mask : list (list Z))
    (pixel_values : list (tensor R)) (h_text h_image : list (list (list R)))
    (n1 n2 : nat) :
  text_model (text_params m) input_ids attention_mask = Ok h_text →
  encoder_output n1 h_text →
  image_model (image_params m) pixel_values = Ok h_image →
  encoder_output n2 h_image →
  n1 ≠ n2 →
  forward text_model image_model m keep input_ids attention_mask pixel_values
  = Err RuntimeError.
Proof.
  intros Htext Hot Himage Hoi Hne. unfold forward.
  rewrite Htext. cbn [mbind result_bind].
  rewrite (first_token_Ok _ _ Hot). cbn [mbind result_bind].
  rewrite Himage. cbn [mbind result_bind].
  rewrite (first_token_Ok _ _ Hoi). cbn [mbind result_bind].
  unfold cat_dim1. rewrite decide_False; [done|].
  rewrite !length_fmap. destruct Hot as [-> _], Hoi as [-> _]. done.
Qed.

(** X9: the scores of a task depend on the head of that task only: two
    models that share the encoders' parameters, the fusion layer and the
    mode, and the head of one task, give that task the same scores,
    however their other heads differ. *)
Theorem forward_head_independent (m m' : t R TextParams ImageParams)
    (keep : nat → nat → bool) (input_ids attention_mask : list (list Z))
    (pixel_values : list (tensor R)) (h_text h_image : list (list (list R)))
    (n : nat) (task : string) :
  architecture m →
  architecture m' →
  text_params m' = text_params m →
  image_params m' = image_params m →
  fusion m' = fusion m →
  training m' = training m →
  dict_get (classifier m') task = dict_get (classifier m) task →
  text_model (text_params m) input_ids attention_mask = Ok h_text →
  encoder_output n h_text →
  image_model (image_params m) pixel_values = Ok h_image →
  encoder_output n h_image →
  (forward text_model image_model m' keep input_ids attention_mask pixel_values
     ≫= λ outs, dict_get outs task)
  = (forward text_model image_model m keep input_ids attention_mask pixel_values
     ≫= λ outs, dict_get outs task).
Proof.
  intros Harch Harch' Htp Hip Hfus Htr Hhead Htext Hot Himage Hoi.
  pose proof Harch as (f & p & ? & ? & ? & ? & ? & Hf & _).
  rewrite (forward_eq_spec text_model image_model m keep _ _ _ h_text h_image n f p)
    by done.
  rewrite (forward_eq_spec text_model image_model m' keep _ _ _ h_text h_image n f p)
    by (done || congruence).
  cbn [mbind result_bind]. unfold forward_spec.
  rewrite !(dict_get_fmap_values
    (λ head, affine head <$>
       imap (λ i hh, fused_vector f p _ (keep i) hh.1 hh.2) (zip h_text h_image))).
  by rewrite Htr, Hhead.
Qed.

End ForwardCoverage.

Lemma forward_eval_ignores_dropout_witness :
  forward sample_text_model sample_image_model (set_training false sample_model)
    sample_keep sample_input_ids sample_attention_mask sample_pixel_values
  = forward sample_text_model sample_image_model (set_training false sample_model)
      other_keep sample_input_ids sample_attention_mask sample_pixel_values.
Proof.
  apply (forward_eval_ignores_dropout sample_text_model sample_image_model
           (set_training false sample_model) sample_keep other_keep).
  reflexivity.
Defined.

Lemma forward_batch_mismatch_witness :
  forward sample_text_model two_sample_image_model sample_model sample_keep
    [[101; 102]%Z] [[1; 1]%Z] [Tensor [3; 1; 1] [0; 0; 0]%Q]
  = Err RuntimeError.
Proof.
  apply (forward_batch_mismatch sample_text_model two_sample_image_model
           sample_model sample_keep [[101; 102]%Z] [[1; 1]%Z]
           [Tensor [3; 1; 1] [0; 0; 0]%Q] [[replicate 768 0%Q]] sample_hidden 1 2).
  - reflexivity.
  - split; [reflexivity|]. repeat constructor; done.
  - reflexivity.
  - exact sample_hidden_ok.
  - lia.
Defined.

Lemma forward_head_independent_witness :
  (forward sample_text_model sample_image_model other_model sample_keep
     sample_input_ids sample_attention_mask sample_pixel_values
     ≫= λ outs, dict_get outs "sentiment")
  = (forward sample_text_model sample_image_model sample_model sample_keep
       sample_input_ids sample_attention_mask sample_pixel_values
     ≫= λ outs, dict_get outs "sentiment").
Proof.
  apply (forward_head_independent sample_text_model sample_image_model
           sample_model other_model sample_keep sample_input_ids
           sample_attention_mask sample_pixel_values sample_hidden sample_hidden 2
           "sentiment").
  - apply architecture_init.
  - apply architecture_init.
  - reflexivity.
  - reflexivity.
  - reflexivity.
  - reflexivity.
  - reflexivity.
  - reflexivity.
  - exact sample_hidden_ok.
  - reflexivity.
  - exact sample_hidden_ok.
Defined.

End ModelCoverage.

(** ** train_model: empty loaders, bad labels, gradients, printed averages *)

Module TrainCoverage.
Import nn MultimodalModel ModelFacts EvaluateFacts TrainFacts Samples MoreSamples.

Section TrainLoop.
Context {R : Type} `{Scalar R} {TextParams ImageParams : Type}.
Context {Grad OptState : Type}.
Variable text_model :
  TextParams → list (list Z) → list (list Z) → result (list (list (list R))).
Variable image_model :
  ImageParams → list (tensor R) → result (list (list (list R))).
Variable dev : torch_device.
Variable ce_value : list (list R) → list nat → R.
Variable autograd :
  MultimodalModel.t R TextParams ImageParams → (nat → nat → bool) →
  batch (R:=R) → Grad.
Variable accumulate : option Grad → Grad → Grad.
Variable optimizer_step :
  OptState → MultimodalModel.t R TextParams ImageParams → option Grad →
  OptState * MultimodalModel.t R TextParams ImageParams.
Variable dropout_draw : nat → nat → nat → bool.
Variable average : R → nat → R.

(** X10: on a loader without batches, training for at least one epoch
    stops at the end of the first epoch with [ZeroDivisionError], raised by
    the average it prints; no model is returned. *)
Theorem train_model_empty_loader
    (st : state (R:=R) (TextParams:=TextParams) (ImageParams:=ImageParams)
                (Grad:=Grad) (OptState:=OptState))
    (dl : DataLoader)
    (crit : list (string * (list (list R) → list nat → result R)))
    (epochs : nat) :
  dl_len dl = 0 →
  dl_pass dl 0 = [] →
  0 < epochs →
  train_model text_model image_model autograd accumulate optimizer_step
    dropout_draw average st dl crit epochs
  = Err ZeroDivisionError.
Proof.
  intros Hlen Hpass Hep. unfold train_model.
  destruct epochs as [|n]; [lia|].
  cbn [train_epochs]. rewrite Hpass. cbn [train_batches mbind result_bind].
  by rewrite decide_True.
Qed.

(** The trace of a run holds one backward pass per batch, and the running
    total is the sum of their losses. *)
Lemma train_batches_losses
    (crit : list (string * (list (list R) → list nat → result R)))
    (bs : list batch) :
  ∀ (st st' : state (R:=R) (TextParams:=TextParams) (ImageParams:=ImageParams)
                    (Grad:=Grad) (OptState:=OptState))
    (total total' : R) (tr : list event),
    train_batches text_model image_model autograd accumulate optimizer_step
      dropout_draw crit st total bs = Ok (st', total', tr) →
    length (backward_losses tr) = length bs ∧
    total' = foldl s_add total (backward_losses tr).
Proof.
  induction bs as [|b bs IH]; intros st st' total total' tr Hrun.
  - injection Hrun as <- <- <-. done.
  - cbn [train_batches] in Hrun.
    apply result_bind_Ok in Hrun as ([[st1 loss] tr1] & Hb & Hrun).
    apply result_bind_Ok in Hrun as ([[st2 total2] tr2] & Hrest & [= <- <- <-]).
    apply IH in Hrest as [Hlen ->].
    unfold train_batch in Hb.
    apply result_bind_Ok in Hb as (outs & _ & Hb).
    apply result_bind_Ok in Hb as (loss' & _ & Hb).
    destruct (optimizer_step _ _ _) as [o' m'].
    injection Hb as <- <- <-.
    cbn [app backward_losses length foldl]. by rewrite Hlen.
Qed.

Lemma backward_losses_app (tr1 tr2 : list (event (R:=R))) :
  backward_losses (tr1 ++ tr2) = backward_losses tr1 ++ backward_losses tr2.
Proof.
  induction tr1 as [|ev tr1 IH]; [done|].
  destruct ev; cbn [app backward_losses]; by rewrite ?IH.
Qed.

Lemma train_epochs_prints
    (crit : list (string * (list (list R) → list nat → result R)))
    (dl : DataLoader) (n : nat) :
  ∀ (epoch : nat)
    (st st' : state (R:=R) (TextParams:=TextParams) (ImageParams:=ImageParams)
                    (Grad:=Grad) (OptState:=OptState))
    (tr : list event) (prints : list R),
    train_epochs text_model image_model autograd accumulate optimizer_step
      dropout_draw average crit dl epoch n st = Ok (st', tr, prints) →
    prints = epoch_prints average dl epoch n (backward_losses tr).
Proof.
  induction n as [|n IH]; intros epoch st st' tr prints Hrun.
  - by injection Hrun as <- <- <-.
  - cbn [train_epochs] in Hrun.
    apply result_bind_Ok in Hrun as ([[st1 total] tr1] & Hpass & Hrun).
    apply result_bind_Ok in Hrun as (printed & Hprint & Hrun).
    apply result_bind_Ok in Hrun as ([[st2 tr2] prints2] & Hrest & [= <- <- <-]).
    case_decide; [done|]. injection Hprint as <-.
    apply train_batches_losses in Hpass as [Hlen ->].
    apply IH in Hrest as ->.
    cbn [epoch_prints]. rewrite backward_losses_app, <- Hlen.
    by rewrite take_app_length, drop_app_length.
Qed.

(** X11: the averages [train_model] prints are, epoch by epoch, the losses
    of the backward passes of that epoch added up from zero in the order
    of the batches and divided by [len(dataloader)] (the number of
    batches, not of samples). *)
Theorem train_model_printed_averages
    (st st' : state (R:=R) (TextParams:=TextParams) (ImageParams:=ImageParams)
                    (Grad:=Grad) (OptState:=OptState))
    (dl : DataLoader)
    (crit : list (string * (list (list R) → list nat → result R)))
    (epochs : nat) (tr : list event) (prints : list R) :
  train_model text_model image_model autograd accumulate optimizer_step
    dropout_draw average st dl crit epochs = Ok (st', tr, prints) →
  prints = epoch_prints average dl 0 epochs (backward_losses tr) ∧
  length prints = epochs.
Proof.
  unfold train_model. intros Hrun.
  apply train_epochs_prints in Hrun as ->. split; [done|].
  generalize (backward_losses tr). generalize 0.
  induction epochs as [|n IH]; intros e l; [done|].
  cbn [epoch_prints length]. by rewrite IH.
Qed.

(** The contract of the pretrained encoders and of the optimizer, as for
    the training steps above. *)
Hypothesis text_model_spec : ∀ tp ids mask,
  ∃ h, text_model tp ids mask = Ok h ∧ encoder_output (length ids) h.
Hypothesis image_model_spec : ∀ ip px,
  ∃ h, image_model ip px = Ok h ∧ encoder_output (length px) h.
Hypothesis optimizer_step_architecture : ∀ o m g,
  architecture m → architecture (optimizer_step o m g).2.

Lemma CrossEntropyLoss_out_of_range (input : list (list R)) (target : list nat)
    (n c : nat) :
  scores_shape n c input →
  length target = n →
  ¬ Forall (λ k, k < c) target →
  CrossEntropyLoss dev ce_value input target = Err (target_out_of_bounds dev).
Proof.
  intros [Hn Hin] Hlen Hbad. unfold CrossEntropyLoss.
  rewrite decide_True by congruence.
  rewrite bool_decide_eq_false_2; [done|].
  intros HF. apply Hbad. apply Forall_lookup. intros i k Hk.
  destruct (Forall2_lookup_r _ _ _ _ _ HF Hk) as (row & Hrow & Hlt).
  by rewrite (Forall_lookup_1 _ _ _ _ Hin Hrow) in Hlt.
Qed.

(** A step on a collated batch either goes through, the labels being in
    range, or stops with the error of the device, some label being out
    of range. *)
Lemma train_batch_cases
    (st : state (R:=R) (TextParams:=TextParams) (ImageParams:=ImageParams)
                (Grad:=Grad) (OptState:=OptState))
    (b : batch) :
  architecture (st_model st) →
  collated b →
  (labels_in_range b ∧
   ∃ st' loss step,
     train_batch text_model image_model autograd accumulate optimizer_step
       dropout_draw (criterion dev ce_value) st b = Ok (st', loss, step) ∧
     architecture (st_model st')) ∨
  (¬ labels_in_range b ∧
   train_batch text_model image_model autograd accumulate optimizer_step
     dropout_draw (criterion dev ce_value) st b = Err (target_out_of_bounds dev)).
Proof.
  intros Harch Hcol. pose proof Hcol as [Hn Hlab].
  destruct (Hlab "sentiment" ltac:(compute_done)) as (ys & Hys & Hls).
  destruct (Hlab "humor" ltac:(compute_done)) as (yh & Hyh & Hlh).
  destruct (Hlab "sarcasm" ltac:(compute_done)) as (ya & Hya & Hla).
  destruct (Hlab "offensive" ltac:(compute_done)) as (yo & Hyo & Hlo).
  destruct (Hlab "motivational" ltac:(compute_done)) as (ym & Hym & Hlm).
  destruct (decide (Forall (λ k, k < 5) ys ∧ Forall (λ k, k < 4) yh ∧
                    Forall (λ k, k < 4) ya ∧ Forall (λ k, k < 4) yo ∧
                    Forall (λ k, k < 2) ym)) as [(Hs & Hh & Ha & Ho & Hm)|Hbad].
  - assert (Hrange : labels_in_range b).
    { intros task c y Hin Hy. unfold num_classes in Hin.
      repeat (apply elem_of_cons in Hin as [[= -> ->]|Hin]);
        [..|by apply elem_of_nil in Hin]; congruence. }
    left. split; [done|].
    destruct (train_batch_spec text_model image_model dev ce_value autograd accumulate
                optimizer_step dropout_draw text_model_spec image_model_spec
                optimizer_step_architecture st b Harch (conj Hcol Hrange))
      as (st' & loss & step & Hb & _ & Harch').
    by exists st', loss, step.
  - assert (Hnot : ¬ labels_in_range b).
    { intros Hrange. apply Hbad.
      split_and!; eapply Hrange; try eassumption; compute_done. }
    right. split; [done|]. unfold train_batch.
    destruct (forward_total text_model image_model text_model_spec image_model_spec
                (st_model st) (dropout_draw (st_draws st)) (b_input_ids b)
                (b_attention_mask b) (b_pixel_values b) Harch Hn)
      as (ss & sh & sa & so & sm & -> & Hss & Hsh & Hsa & Hso & Hsm).
    cbn [mbind result_bind]. rewrite sum_losses_heads_eq.
    rewrite Hys, Hyh, Hya, Hyo, Hym. cbn [mbind result_bind].
    destruct (decide (Forall (λ k, k < 5) ys)) as [Hs|Hs];
      [|by rewrite (CrossEntropyLoss_out_of_range ss ys _ _ Hss Hls Hs)].
    rewrite (CrossEntropyLoss_Ok dev ce_value ss ys _ _ Hss Hls Hs).
    cbn [mbind result_bind].
    destruct (decide (Forall (λ k, k < 4) yh)) as [Hh|Hh];
      [|by rewrite (CrossEntropyLoss_out_of_range sh yh _ _ Hsh Hlh Hh)].
    rewrite (CrossEntropyLoss_Ok dev ce_value sh yh _ _ Hsh Hlh Hh).
    cbn [mbind result_bind].
    destruct (decide (Forall (λ k, k < 4) ya)) as [Ha|Ha];
      [|by rewrite (CrossEntropyLoss_out_of_range sa ya _ _ Hsa Hla Ha)].
    rewrite (CrossEntropyLoss_Ok dev ce_value sa ya _ _ Hsa Hla Ha).
    cbn [mbind result_bind].
    destruct (decide (Forall (λ k, k < 4) yo)) as [Ho|Ho];
      [|by rewrite (CrossEntropyLoss_out_of_range so yo _ _ Hso Hlo Ho)].
    rewrite (CrossEntropyLoss_Ok dev ce_value so yo _ _ Hso Hlo Ho).
    cbn [mbind result_bind].
    destruct (decide (Forall (λ k, k < 2) ym)) as [Hm|Hm];
      [|by rewrite (CrossEntropyLoss_out_of_range sm ym _ _ Hsm Hlm Hm)].
    destruct Hbad. done.
Qed.

Lemma train_batches_bad_label (bs : list batch) :
  Forall collated bs →
  ¬ Forall labels_in_range bs →
  ∀ (st : state (R:=R) (TextParams:=TextParams) (ImageParams:=ImageParams)
                (Grad:=Grad) (OptState:=OptState)) (total : R),
    architecture (st_model st) →
    train_batches text_model image_model autograd accumulate optimizer_step
      dropout_draw (criterion dev ce_value) st total bs = Err (target_out_of_bounds dev).
Proof.
  induction 1 as [|b bs Hb _ IH]; intros Hbad st total Harch.
  - destruct Hbad. constructor.
  - cbn [train_batches].
    destruct (train_batch_cases st b Harch Hb)
      as [(Hrange & st1 & loss & step & -> & Harch1)|[_ ->]]; [|done].
    cbn [mbind result_bind]. rewrite IH; [done| |done].
    intros Hrest. apply Hbad. by constructor.
Qed.

(** X12: a single label outside the class range of its head, anywhere in
    the batches of the first pass, stops training with the error the
    device raises for it ([IndexError] on the CPU, [RuntimeError] on
    CUDA): the loss of that batch cannot be computed and no trained model
    is returned. *)
Theorem train_model_label_out_of_range
    (st : state (R:=R) (TextParams:=TextParams) (ImageParams:=ImageParams)
                (Grad:=Grad) (OptState:=OptState))
    (dl : DataLoader) (epochs : nat) :
  architecture (st_model st) →
  0 < epochs →
  Forall collated (dl_pass dl 0) →
  ¬ Forall labels_in_range (dl_pass dl 0) →
  train_model text_model image_model autograd accumulate optimizer_step
    dropout_draw average st dl (criterion dev ce_value) epochs
  = Err (target_out_of_bounds dev).
Proof.
  intros Harch Hep Hcol Hbad. unfold train_model.
  destruct epochs as [|n]; [lia|]. cbn [train_epochs].
  rewrite (train_batches_bad_label _ Hcol Hbad); [done|].
  by apply architecture_set_training.
Qed.

End TrainLoop.

Lemma train_model_empty_loader_witness :
  train_model sample_text_model sample_image_model sample_autograd
    sample_accumulate sample_optimizer_step sample_dropout_draw sample_average
    sample_state empty_loader (criterion cpu sample_ce_value) default_epochs
  = Err ZeroDivisionError.
Proof.
  apply (train_model_empty_loader sample_text_model sample_image_model
           sample_autograd sample_accumulate sample_optimizer_step
           sample_dropout_draw sample_average sample_state empty_loader).
  - reflexivity.
  - reflexivity.
  - unfold default_epochs. lia.
Defined.

Lemma train_model_printed_averages_witness :
  ∃ st' tr prints,
    train_model sample_text_model sample_image_model sample_autograd
      sample_accumulate sample_optimizer_step sample_dropout_draw sample_average
      sample_state sample_loader (criterion cpu sample_ce_value) default_epochs
    = Ok (st', tr, prints) ∧
    prints = epoch_prints sample_average sample_loader 0 default_epochs
               (backward_losses tr) ∧
    length prints = default_epochs.
Proof.
  destruct (train_epochs_spec sample_text_model sample_image_model cpu sample_ce_value
              sample_autograd sample_accumulate sample_optimizer_step
              sample_dropout_draw sample_average
              sample_text_model_spec sample_image_model_spec
              (λ o m g Hm, Hm) sample_loader default_epochs
              ltac:(cbn; lia)
              (λ e, match Nat.even e as c
                      return Forall trainable
                               (if c then [sample_batch; other_batch]
                                else [other_batch; sample_batch]) with
                    | true => Forall_cons_2 _ _ _ sample_batch_trainable
                                (Forall_cons_2 _ _ _ other_batch_trainable
                                   (Forall_nil_2 _))
                    | false => Forall_cons_2 _ _ _ other_batch_trainable
                                 (Forall_cons_2 _ _ _ sample_batch_trainable
                                    (Forall_nil_2 _))
                    end)
              0 (MkState (set_training true sample_model) None 0 0)
              (architecture_init tt tt _ _))
    as (st' & tr & prints & Hrun & _).
  exists st', tr, prints. split; [exact Hrun|].
  exact (train_model_printed_averages sample_text_model sample_image_model
           sample_autograd sample_accumulate sample_optimizer_step
           sample_dropout_draw sample_average sample_state st' sample_loader
           (criterion cpu sample_ce_value) default_epochs tr prints Hrun).
Defined.

Lemma train_model_label_out_of_range_witness :
  train_model sample_text_model sample_image_model sample_autograd
    sample_accumulate sample_optimizer_step sample_dropout_draw sample_average
    sample_state bad_loader (criterion (device true) sample_ce_value)
    default_epochs
  = Err RuntimeError.
Proof.
  apply (train_model_label_out_of_range sample_text_model sample_image_model
           (device true) sample_ce_value sample_autograd sample_accumulate
           sample_optimizer_step sample_dropout_draw sample_average
           sample_text_model_spec sample_image_model_spec (λ o m g Hm, Hm)).
  - apply architecture_init.
  - unfold default_epochs. lia.
  - apply Forall_cons_2; [apply sample_batch_collated|].
    apply Forall_cons_2; [|apply Forall_nil_2].
    split; [reflexivity|].
    intros task Hk. unfold tasks in Hk.
    repeat (apply elem_of_cons in Hk as [->|Hk]);
      [by eexists..|by apply elem_of_nil in Hk].
  - intros Hall. cbn in Hall. apply Forall_cons in Hall as [_ Hall].
    apply Forall_cons in Hall as [Hbad _].
    specialize (Hbad "sentiment" 5 [7] ltac:(compute_done) eq_refl).
    apply Forall_cons in Hbad as [Hlt _]. lia.
Defined.

End TrainCoverage.

(** ** Collation of dataset items into batches *)

Module CollateCoverage.
Import nn MemeDataset MemeDatasetFacts LabelRangeFacts Samples MoreSamples.

Lemma stack_same_shape {A} (ts : list (tensor A)) (sh : list nat) :
  ts ≠ [] → Forall (λ t, shape t = sh) ts → stack ts = Ok ts.
Proof.
  intros Hne Hsh. unfold stack. destruct ts as [|t0 ts0]; [done|].
  rewrite bool_decide_eq_true_2; [done|].
  pose proof (Forall_inv Hsh) as H0. cbn beta in H0.
  eapply Forall_impl; [exact Hsh|]. intros t Ht. cbn beta in *. congruence.
Qed.

Lemma stack_shape_mismatch {A} (ts : list (tensor A)) (t t' : tensor A) :
  t ∈ ts → t' ∈ ts → shape t ≠ shape t' → stack ts = Err RuntimeError.
Proof.
  intros Ht Ht' Hne. unfold stack. destruct ts as [|t0 ts0].
  - by apply elem_of_nil in Ht.
  - rewrite bool_decide_eq_false_2; [done|].
    intros Hall. apply Hne.
    rewrite (proj1 (Forall_forall _ _) Hall t Ht).
    by rewrite (proj1 (Forall_forall _ _) Hall t' Ht').
Qed.

Lemma mapM_is_Ok {A B} (f : A → result B) (l : list A) :
  Forall (λ a, is_Ok (f a)) l → is_Ok (mapM f l).
Proof.
  induction 1 as [|a l [b Hb] _ [k Hk]]; [by eexists|].
  exists (b :: k). cbn [mapM]. by rewrite Hb, Hk.
Qed.

Section Collate.
Context {R : Type} `{Scalar R}.
Variable wordpiece : string → list Z.
Variable load_image : string → string → result (tensor R).

(** The token tensors of every returned item have the shape the
    configured length fixes, when it leaves room for a token of the
    text. *)
Lemma getitem_text_shape (ds : MemeDataset.t) (idx : nat) (it : item R) :
  3 ≤ text_max_length ds →
  getitem wordpiece load_image ds idx = Ok it →
  shape (input_ids it) = [text_max_length ds] ∧
  shape (attention_mask it) = [text_max_length ds].
Proof.
  intros HL Hit. apply getitem_Ok_inv in Hit
    as (r & px & ks & kh & ka & ko & _ & _ & _ & _ & _ & _ & ->).
  cbn [input_ids attention_mask].
  rewrite (tokenizer_fits wordpiece (text_corrected r) _ HL).
  cbn [enc_input_ids enc_attention_mask squeeze shape].
  rewrite filter_cons_False by (intros ?; done).
  rewrite filter_cons_True by lia. done.
Qed.

(** [torch.stack] fails in one way only. *)
Lemma stack_cases {A} (ts : list (tensor A)) :
  stack ts = Ok ts ∨ stack ts = Err RuntimeError.
Proof.
  unfold stack. destruct ts as [|t0 ts0]; [by right|].
  case_bool_decide; [by left|by right].
Qed.

Lemma getitem_label_keys (ds : MemeDataset.t) (idx : nat) (it : item R)
    (task : string) :
  getitem wordpiece load_image ds idx = Ok it →
  keys (labels it) = tasks ∧ (task ∈ tasks → is_Ok (dict_get (labels it) task)).
Proof.
  intros Hit. apply (getitem_labels_bounds wordpiece load_image) in Hit
    as (ks & kh & ka & ko & km & -> & _).
  split; [done|]. intros Hk. unfold tasks in Hk.
  repeat (apply elem_of_cons in Hk as [->|Hk]);
    [by eexists..|by apply elem_of_nil in Hk].
Qed.

(** X13: the items [__getitem__] returns for any indices of one dataset
    whose configured length leaves room for a token of the text (three
    or more, as the default 128) collate into a batch as soon as their
    images agree in shape: the token tensors always stack, every label
    column is complete, and the batch is one the loss functions
    accept. *)
Theorem default_collate_items (ds : MemeDataset.t) (items : list (item R))
    (sh : list nat) :
  3 ≤ text_max_length ds →
  items ≠ [] →
  Forall (λ it, ∃ idx, getitem wordpiece load_image ds idx = Ok it) items →
  Forall (λ it, shape (pixel_values it) = sh) items →
  ∃ b, default_collate items = Ok b ∧
       trainable b ∧
       b_input_ids b = (λ it, data (input_ids it)) <$> items ∧
       b_attention_mask b = (λ it, data (attention_mask it)) <$> items ∧
       b_pixel_values b = pixel_values <$> items.
Proof.
  intros HL Hne Hitems Hsh.
  assert (Hids : stack (input_ids <$> items) = Ok (input_ids <$> items)).
  { apply (stack_same_shape _ [text_max_length ds]).
    - by destruct items.
    - apply Forall_fmap. eapply Forall_impl; [exact Hitems|].
      intros it [idx Hit]. by apply (getitem_text_shape _ _ _ HL) in Hit as [? _]. }
  assert (Hmask : stack (attention_mask <$> items) = Ok (attention_mask <$> items)).
  { apply (stack_same_shape _ [text_max_length ds]).
    - by destruct items.
    - apply Forall_fmap. eapply Forall_impl; [exact Hitems|].
      intros it [idx Hit]. by apply (getitem_text_shape _ _ _ HL) in Hit as [_ ?]. }
  assert (Hpx : stack (pixel_values <$> items) = Ok (pixel_values <$> items)).
  { apply (stack_same_shape _ sh); [by destruct items|by apply Forall_fmap]. }
  assert (Hlab : ∀ elem, elem ∈ items →
    is_Ok (mapM (λ key,
                   ys ← mapM (λ it, dict_get (labels it) key) items;
                   mret (key, ys))
                (keys (labels elem)))).
  { intros elem Helem. apply mapM_is_Ok.
    destruct (proj1 (Forall_forall _ _) Hitems elem Helem) as [idx0 Hit0].
    destruct (getitem_label_keys ds idx0 elem "sentiment" Hit0) as [-> _].
    apply Forall_forall. intros key Hkey.
    destruct (mapM_is_Ok (λ it, dict_get (labels it) key) items) as [ys Hys].
    { eapply Forall_impl; [exact Hitems|]. intros it [idx Hit].
      by apply (getitem_label_keys ds idx it key Hit). }
    exists (key, ys). by rewrite Hys. }
  destruct items as [|elem items']; [done|].
  destruct (Hlab elem ltac:(apply elem_of_cons; by left)) as [lab Hl].
  assert (Hb : default_collate (elem :: items')
               = Ok (Batch (data <$> (input_ids <$> elem :: items'))
                           (data <$> (attention_mask <$> elem :: items'))
                           (pixel_values <$> elem :: items') lab)).
  { unfold default_collate. rewrite Hids. cbn [mbind result_bind].
    rewrite Hmask. cbn [mbind result_bind]. rewrite Hpx. cbn [mbind result_bind].
    by rewrite Hl. }
  eexists. split; [exact Hb|].
  split; [exact (default_collate_trainable wordpiece load_image ds _ _ Hitems Hb)|].
  cbn [b_input_ids b_attention_mask b_pixel_values].
  by rewrite <- !list_fmap_compose.
Qed.

(** X14: two items whose images differ in shape cannot share a batch:
    collation stops with [RuntimeError], at the latest when it stacks
    the pixel values. *)
Theorem default_collate_shape_mismatch (ds : MemeDataset.t)
    (items : list (item R)) (it it' : item R) :
  Forall (λ it, ∃ idx, getitem wordpiece load_image ds idx = Ok it) items →
  it ∈ items → it' ∈ items →
  shape (pixel_values it) ≠ shape (pixel_values it') →
  default_collate items = Err RuntimeError.
Proof.
  intros Hitems Hit Hit' Hne.
  assert (Hpx : stack (pixel_values <$> items) = Err RuntimeError).
  { apply (stack_shape_mismatch _ (pixel_values it) (pixel_values it'));
      [by apply list_elem_of_fmap_2..|done]. }
  destruct items as [|elem items']; [by apply elem_of_nil in Hit|].
  unfold default_collate.
  destruct (stack_cases (input_ids <$> elem :: items')) as [->| ->]; [|done].
  cbn [mbind result_bind].
  destruct (stack_cases (attention_mask <$> elem :: items')) as [->| ->]; [|done].
  cbn [mbind result_bind]. by rewrite Hpx.
Qed.

End Collate.

Lemma default_collate_items_witness :
  ∃ b, default_collate [sample_item; sample_item] = Ok b ∧
       trainable b ∧
       b_input_ids b = (λ it, data (input_ids it)) <$> [sample_item; sample_item] ∧
       b_attention_mask b
         = (λ it, data (attention_mask it)) <$> [sample_item; sample_item] ∧
       b_pixel_values b = pixel_values <$> [sample_item; sample_item].
Proof.
  apply (default_collate_items sample_wordpiece sample_load_image sample_dataset
           [sample_item; sample_item] [3]).
  - vm_compute. lia.
  - done.
  - apply Forall_cons_2; [by exists 0|].
    apply Forall_cons_2; [by exists 0|apply Forall_nil_2].
  - apply Forall_cons_2; [reflexivity|].
    apply Forall_cons_2; [reflexivity|apply Forall_nil_2].
Defined.

Lemma default_collate_shape_mismatch_witness :
  default_collate [sample_item; wide_item] = Err RuntimeError.
Proof.
  apply (default_collate_shape_mismatch sample_wordpiece varying_load_image
           sample_dataset [sample_item; wide_item] sample_item wide_item).
  - apply Forall_cons_2; [by exists 0|].
    apply Forall_cons_2; [by exists 2|apply Forall_nil_2].
  - apply elem_of_cons. by left.
  - apply elem_of_cons. right. apply elem_of_cons. by left.
  - cbn. congruence.
Defined.

End CollateCoverage.

(** ** Predictions of the evaluation loop *)

Module EvalCoverage.
Import nn MemeDataset MultimodalModel ModelFacts EvaluateFacts Samples MoreSamples.

(** The vocabulary of every task has as many names as its head has
    classes. *)
Lemma decode_in_range (task : string) (c k : nat) :
  (task, c) ∈ num_classes → k < c → is_Ok (decode task k).
Proof.
  intros Hin Hlt. unfold num_classes in Hin.
  repeat (apply elem_of_cons in Hin as [[= -> ->]|Hin]);
    [..|by apply elem_of_nil in Hin];
    repeat (destruct k as [|k]; [eexists; reflexivity|]); lia.
Qed.

Section Predict.
Context {R : Type} `{Scalar R} {TextParams ImageParams : Type}.
Variable text_model :
  TextParams → list (list Z) → list (list Z) → result (list (list (list R))).
Variable image_model :
  ImageParams → list (tensor R) → result (list (list (list R))).

(** The contract of the pretrained encoders. *)
Hypothesis text_model_spec : ∀ tp ids mask,
  ∃ h, text_model tp ids mask = Ok h ∧ encoder_output (length ids) h.
Hypothesis image_model_spec : ∀ ip px,
  ∃ h, image_model ip px = Ok h ∧ encoder_output (length px) h.

Lemma argmax_from_bound (row : list R) :
  ∀ i best_i best, best_i < i → argmax_from i best_i best row < i + length row.
Proof.
  induction row as [|v row IH]; intros i best_i best Hlt; cbn [argmax_from length].
  - lia.
  - destruct (s_ltb best v).
    + specialize (IH (S i) i v). lia.
    + specialize (IH (S i) best_i best). lia.
Qed.

Lemma argmax_bound (row : list R) (k : nat) :
  argmax row = Ok k → k < length row.
Proof.
  destruct row as [|v row]; [done|]. intros [= <-].
  pose proof (argmax_from_bound row 1 0 v). cbn [length]. lia.
Qed.

Lemma mapM_argmax_range (o : list (list R)) (p : list nat) (n c : nat) :
  scores_shape n c o → mapM argmax o = Ok p →
  length p = n ∧ Forall (λ k, k < c) p.
Proof.
  intros [Hn Ho] Hp. apply mapM_Ok_Forall2 in Hp.
  split; [by rewrite <- (Forall2_length _ _ _ Hp)|]. clear Hn.
  induction Hp as [|row k o p Hk _ IH]; [done|].
  apply Forall_cons in Ho as [Hrow Ho].
  constructor; [|by apply IH]. apply argmax_bound in Hk. lia.
Qed.

(** X15: on a batch with as many images as texts the evaluation loop
    predicts, for every task, one class index per sample, and each index
    names a class of the task: it is below the class count of the head
    and reads back through the label map. *)
Theorem predict_classes (m : MultimodalModel.t R TextParams ImageParams)
    (b : batch) :
  architecture m →
  length (b_pixel_values b) = length (b_input_ids b) →
  ∃ preds,
    predict text_model image_model m b = Ok preds ∧
    keys preds = tasks ∧
    ∀ task c, (task, c) ∈ num_classes →
      ∃ p, dict_get preds task = Ok p ∧
           length p = length (b_input_ids b) ∧
           Forall (λ k, k < c ∧ is_Ok (decode task k)) p.
Proof.
  intros Harch Hn. unfold predict.
  destruct (forward_total text_model image_model text_model_spec image_model_spec
              m (λ _ _, true) _ (b_attention_mask b) _ Harch Hn)
    as (ss & sh & sa & so & sm & -> & Hs & Hh & Ha & Ho & Hm).
  cbn [mbind result_bind]. rewrite predict_heads_eq.
  destruct (mapM_argmax_total _ _ _ Hs) as (ps & Hps & _).
  destruct (mapM_argmax_total _ _ _ Hh) as (ph & Hph & _).
  destruct (mapM_argmax_total _ _ _ Ha) as (pa & Hpa & _).
  destruct (mapM_argmax_total _ _ _ Ho) as (po & Hpo & _).
  destruct (mapM_argmax_total _ _ _ Hm) as (pm & Hpm & _).
  rewrite Hps, Hph, Hpa, Hpo, Hpm. cbn [mbind result_bind mret result_ret].
  eexists. split; [reflexivity|]. split; [done|].
  intros task c Hin.
  assert (Hdec : ∀ p, Forall (λ k, k < c) p →
                      Forall (λ k, k < c ∧ is_Ok (decode task k)) p).
  { intros p Hp. eapply Forall_impl; [exact Hp|]. intros k Hk.
    split; [done|]. by apply (decode_in_range task c). }
  pose proof Hin as Hin'. unfold num_classes in Hin'.
  repeat (apply elem_of_cons in Hin' as [[= -> ->]|Hin']);
    [| | | | |by apply elem_of_nil in Hin'].
  - destruct (mapM_argmax_range _ _ _ _ Hs Hps). exists ps. split_and!; auto.
  - destruct (mapM_argmax_range _ _ _ _ Hh Hph). exists ph. split_and!; auto.
  - destruct (mapM_argmax_range _ _ _ _ Ha Hpa). exists pa. split_and!; auto.
  - destruct (mapM_argmax_range _ _ _ _ Ho Hpo). exists po. split_and!; auto.
  - destruct (mapM_argmax_range _ _ _ _ Hm Hpm). exists pm. split_and!; auto.
Qed.

End Predict.

Lemma predict_classes_witness :
  ∃ preds,
    predict sample_text_model sample_image_model sample_model sample_batch
      = Ok preds ∧
    keys preds = tasks ∧
    ∀ task c, (task, c) ∈ num_classes →
      ∃ p, dict_get preds task = Ok p ∧
           length p = length (b_input_ids sample_batch) ∧
           Forall (λ k, k < c ∧ is_Ok (decode task k)) p.
Proof.
  apply (predict_classes sample_text_model sample_image_model
           sample_text_model_spec sample_image_model_spec
           sample_model sample_batch).
  - apply architecture_init.
  - reflexivity.
Defined.

End EvalCoverage.
